(** * API-SUT: the in-memory item store of [main.py]

    A shallow embedding of the CRUD handlers of [main.py] and of the
    request validation declared by its pydantic models, followed by the
    properties of the store.

    Modelling choices.
    - Python [int] is [Z] (unbounded), [str] is [string] with
      [String.length] counting characters, [Optional[str]] is
      [option string].
    - Python [float] (binary64) is [spec_float], compared with the
      IEEE 754 comparison [SFltb]; a NaN compares false with everything.
    - [datetime] is [Z]: naive datetimes are totally ordered, and a
      reading of [datetime.now()] is an input of the handler that takes
      it. It is the wall clock: nothing in [main.py] orders one reading
      after another.
    - the module globals [data_store] and [next_id] form the record
      [Store]; every handler takes the store and returns the new one.
    - [raise HTTPException(...)] is the [Raise] branch of [Result]. *)

From Stdlib Require Import ZArith Lia.
From Stdlib Require Import Floats.SpecFloat.
From stdpp Require Import gmap strings pretty sorting.

Open Scope Z_scope.

(** ** Data model *)

Definition datetime := Z.
Definition float := spec_float.

(** [class ItemBase(BaseModel)]: the four fields a client sends. *)
Record ItemBase := {
  name : string;
  description : option string;
  price : float;
  quantity : Z
}.

(** [class ItemCreate(ItemBase): pass] and [class ItemUpdate(ItemBase): pass]. *)
Definition ItemCreate := ItemBase.
Definition ItemUpdate := ItemBase.

(** The dictionaries kept in [data_store], of the shape of [class Item]:
    [{"id": ..., **item.model_dump(), "created_at": ..., "updated_at": ...}]. *)
Record Item := {
  id : Z;
  base : ItemBase;
  created_at : datetime;
  updated_at : datetime
}.

(** [data_store: dict[int, dict] = {}] and [next_id: int = 1]. *)
Record Store := {
  data_store : gmap Z Item;
  next_id : Z
}.

Definition module_globals : Store :=
  {| data_store := ∅; next_id := 1 |}.

(** ** Exceptions and results *)

Definition HTTP_200_OK : Z := 200.
Definition HTTP_201_CREATED : Z := 201.
Definition HTTP_204_NO_CONTENT : Z := 204.
Definition HTTP_404_NOT_FOUND : Z := 404.
Definition HTTP_422_UNPROCESSABLE : Z := 422.
Definition HTTP_500_INTERNAL_SERVER_ERROR : Z := 500.

(** The value a field was given. A validation error names the field that
    failed and echoes this value as its "input". *)
Inductive Input :=
| InputNone
| InputString (s : string)
| InputFloat (p : float)
| InputInt (q : Z).

Inductive Exception :=
| HTTPException (status_code : Z) (detail : string)
| RequestValidationError (errors : list (string * Input)).

Inductive Result (A : Type) :=
| Return (a : A)
| Raise (e : Exception).
Arguments Return {A} a.
Arguments Raise {A} e.

(** ** Field constraints of [ItemBase]

    [Field(..., min_length=1, max_length=100)], [Field(None, max_length=500)],
    [Field(..., gt=0)] and [Field(..., ge=0)]. Each check is the
    comparison pydantic performs; a field that fails is reported by name,
    with the value it was given, in declaration order. *)

Definition float_zero : float := S754_zero false.

Definition name_ok (s : string) : bool :=
  (1 <=? String.length s)%nat && (String.length s <=? 100)%nat.

Definition description_ok (d : option string) : bool :=
  match d with
  | None => true
  | Some s => (String.length s <=? 500)%nat
  end.

Definition price_ok (p : float) : bool := SFltb float_zero p.

Definition quantity_ok (q : Z) : bool := 0 <=? q.

Definition check (field : string) (input : Input) (ok : bool)
    : list (string * Input) :=
  if ok then [] else [(field, input)].

Definition validation_errors (item : ItemBase) : list (string * Input) :=
  check "name" (InputString (name item)) (name_ok (name item))
  ++ check "description"
       (match description item with
        | Some s => InputString s
        | None => InputNone
        end)
       (description_ok (description item))
  ++ check "price" (InputFloat (price item)) (price_ok (price item))
  ++ check "quantity" (InputInt (quantity item)) (quantity_ok (quantity item)).

(** The names of the fields that fail. *)
Definition validate (item : ItemBase) : list string :=
  (validation_errors item).*1.

(** ** Demo data *)

(** 29.99, 149.99, 49.99, 79.99 and 89.99 as the binary64 values Python
    reads them as: mantissa and exponent of the nearest double. *)
Definition f29_99 : float := S754_finite false 8441434551552573 (-48).
Definition f149_99 : float := S754_finite false 5277303969603912 (-45).
Definition f49_99 : float := S754_finite false 7035467042882847 (-47).
Definition f79_99 : float := S754_finite false 5628795846771343 (-46).
Definition f89_99 : float := S754_finite false 6332483288547983 (-46).

Definition wireless_mouse : ItemBase :=
  {| name := "Wireless Mouse";
     description := Some "Ergonomic wireless mouse with adjustable DPI";
     price := f29_99; quantity := 150 |}.

Definition mechanical_keyboard : ItemBase :=
  {| name := "Mechanical Keyboard";
     description := Some "RGB mechanical keyboard with Cherry MX switches";
     price := f149_99; quantity := 75 |}.

Definition usb_c_hub : ItemBase :=
  {| name := "USB-C Hub";
     description := Some "7-in-1 USB-C hub with HDMI, USB 3.0, and SD card reader";
     price := f49_99; quantity := 200 |}.

Definition monitor_stand : ItemBase :=
  {| name := "Monitor Stand";
     description := Some "Adjustable monitor stand with cable management";
     price := f79_99; quantity := 50 |}.

Definition webcam_hd : ItemBase :=
  {| name := "Webcam HD";
     description := Some "1080p HD webcam with built-in microphone";
     price := f89_99; quantity := 120 |}.

Definition demo_items : list ItemBase :=
  [wireless_mouse; mechanical_keyboard; usb_c_hub; monitor_stand; webcam_hd].

(** The body of the [for item_data in demo_items] loop; [clock i] is the
    reading of [datetime.now()] in iteration [i]. *)
Fixpoint initialize_loop (items : list ItemBase) (clock : nat -> datetime)
    (i : nat) (st : Store) : Store :=
  match items with
  | [] => st
  | item_data :: rest =>
      let now := clock i in
      let st' :=
        {| data_store :=
             <[next_id st := {| id := next_id st; base := item_data;
                                created_at := now; updated_at := now |}]>
               (data_store st);
           next_id := next_id st + 1 |} in
      initialize_loop rest clock (S i) st'
  end.

Definition initialize_demo_data (clock : nat -> datetime) (st : Store) : Store :=
  initialize_loop demo_items clock 0%nat st.

(** The store once the module is loaded: [initialize_demo_data()] runs on
    the fresh globals. *)
Definition startup (clock : nat -> datetime) : Store :=
  initialize_demo_data clock module_globals.

(** ** Handlers *)

(** [f"Item with id {item_id} not found"]; [pretty] prints a [Z] in
    decimal with a leading minus sign, as [str(int)] does. *)
Definition not_found (item_id : Z) : Exception :=
  HTTPException HTTP_404_NOT_FOUND
    ("Item with id " +:+ pretty item_id +:+ " not found").

(** [list(data_store.values())]. A dict lists its values in insertion
    order; keys are inserted in increasing order and assigning to a key
    already present keeps its place, so the values are listed by
    increasing key, over the keys issued so far. *)
Definition get_all_items (st : Store) : Result (list Item) * Store :=
  (Return (omap (λ k, data_store st !! k) (seqZ 1 (next_id st - 1))), st).

Definition get_item_by_id (item_id : Z) (st : Store) : Result Item * Store :=
  match data_store st !! item_id with
  | None => (Raise (not_found item_id), st)
  | Some it => (Return it, st)
  end.

Definition create_item (item : ItemCreate) (now : datetime) (st : Store)
    : Result Item * Store :=
  let new_item :=
    {| id := next_id st; base := item; created_at := now; updated_at := now |} in
  (Return new_item,
   {| data_store := <[next_id st := new_item]> (data_store st);
      next_id := next_id st + 1 |}).

Definition update_item (item_id : Z) (item : ItemUpdate) (now : datetime)
    (st : Store) : Result Item * Store :=
  match data_store st !! item_id with
  | None => (Raise (not_found item_id), st)
  | Some existing_item =>
      let updated_item :=
        {| id := item_id; base := item;
           created_at := created_at existing_item; updated_at := now |} in
      (Return updated_item,
       {| data_store := <[item_id := updated_item]> (data_store st);
          next_id := next_id st |})
  end.

Definition delete_item (item_id : Z) (st : Store) : Result unit * Store :=
  match data_store st !! item_id with
  | None => (Raise (not_found item_id), st)
  | Some _ =>
      (Return tt,
       {| data_store := delete item_id (data_store st);
          next_id := next_id st |})
  end.

Definition health_check : string := "API-SUT is healthy and running!".
Definition root : string :=
  "Welcome to API-SUT! Visit /docs for Swagger documentation.".

(** ** The routes

    What the [@app.get/post/put/delete] decorators declare: the request
    body is validated against the handler's model before the handler is
    called (on a failure the handler does not run), the handler's value
    is sent with the route's [status_code], and an [HTTPException] is sent
    with its own status and its detail. A validation failure is answered
    422 with the list of errors as JSON; that list echoes the value of
    each failing field, and JSON has no NaN or infinity: when such a value
    is among them the answer cannot be encoded and the server answers 500
    instead. *)

Inductive Request :=
| GET_items
| GET_items_id (item_id : Z)
| POST_items (body : ItemBase)
| PUT_items_id (item_id : Z) (body : ItemBase)
| DELETE_items_id (item_id : Z)
| GET_health
| GET_root.

Inductive Body :=
| JsonItems (items : list Item)
| JsonItem (it : Item)
| JsonMessage (message : string)
| JsonDetail (detail : string)
| JsonErrors (fields : list string)
| PlainText (text : string)
| NoBody.

Record Response := {
  status : Z;
  body : Body
}.

(** Whether a value can be written as JSON: every value but a NaN or an
    infinite float. *)
Definition encodable (input : Input) : bool :=
  match input with
  | InputFloat S754_nan | InputFloat (S754_infinity _) => false
  | _ => true
  end.

Definition respond {A : Type} (status_code : Z) (render : A -> Body)
    (r : Result A) : Response :=
  match r with
  | Return a => {| status := status_code; body := render a |}
  | Raise (HTTPException code detail) =>
      {| status := code; body := JsonDetail detail |}
  | Raise (RequestValidationError errors) =>
      if forallb encodable errors.*2
      then {| status := HTTP_422_UNPROCESSABLE; body := JsonErrors errors.*1 |}
      else {| status := HTTP_500_INTERNAL_SERVER_ERROR;
              body := PlainText "Internal Server Error" |}
  end.

Definition validated {A : Type} (item : ItemBase)
    (handler : Store -> Result A * Store) (st : Store) : Result A * Store :=
  match validation_errors item with
  | [] => handler st
  | errors => (Raise (RequestValidationError errors), st)
  end.

Definition app (req : Request) (now : datetime) (st : Store) : Response * Store :=
  match req with
  | GET_items =>
      prod_map (respond HTTP_200_OK JsonItems) (λ s, s) (get_all_items st)
  | GET_items_id item_id =>
      prod_map (respond HTTP_200_OK JsonItem) (λ s, s) (get_item_by_id item_id st)
  | POST_items item =>
      prod_map (respond HTTP_201_CREATED JsonItem) (λ s, s)
               (validated item (create_item item now) st)
  | PUT_items_id item_id item =>
      prod_map (respond HTTP_200_OK JsonItem) (λ s, s)
               (validated item (update_item item_id item now) st)
  | DELETE_items_id item_id =>
      prod_map (respond HTTP_204_NO_CONTENT (λ _, NoBody)) (λ s, s)
               (delete_item item_id st)
  | GET_health =>
      ({| status := HTTP_200_OK; body := JsonMessage health_check |}, st)
  | GET_root =>
      ({| status := HTTP_200_OK; body := JsonMessage root |}, st)
  end.

(** A run of the process: the requests served in order, each with the
    clock reading its handler takes. *)
Fixpoint run (reqs : list (Request * datetime)) (st : Store)
    : list Response * Store :=
  match reqs with
  | [] => ([], st)
  | (req, now) :: rest =>
      let '(resp, st') := app req now st in
      let '(resps, st'') := run rest st' in
      (resp :: resps, st'')
  end.

Definition responses (clock : nat -> datetime) (reqs : list (Request * datetime))
    : list Response :=
  (run reqs (startup clock)).1.

Definition state_after (clock : nat -> datetime) (reqs : list (Request * datetime))
    : Store :=
  (run reqs (startup clock)).2.

(** The id a response of [create_item] carries: the 201 answers. *)
Definition created_id (resp : Response) : option Z :=
  match body resp with
  | JsonItem it => if decide (status resp = HTTP_201_CREATED) then Some (id it) else None
  | _ => None
  end.

Definition created_ids (resps : list Response) : list Z :=
  omap created_id resps.

(** ** Invariants of the store and vocabulary of the properties *)

(** Every key of the mapping was issued by the counter, which started at 1. *)
Definition keys_below (st : Store) : Prop :=
  1 ≤ next_id st ∧ ∀ k, is_Some (data_store st !! k) → 1 ≤ k < next_id st.

(** The mapping is keyed by the item's own id. *)
Definition keyed (st : Store) : Prop :=
  ∀ k it, data_store st !! k = Some it → id it = k.

(** No stored timestamp is later than [t], and no [created_at] is later
    than the [updated_at] beside it. *)
Definition timestamps_bounded (t : datetime) (st : Store) : Prop :=
  ∀ k it, data_store st !! k = Some it →
          created_at it ≤ updated_at it ∧ updated_at it ≤ t.

(** The ids issued by the time [reqs] have been served: those of the demo
    items and those returned by [create_item], whatever became of the
    items since. *)
Definition ids_issued (clock : nat -> datetime) (reqs : list (Request * datetime))
    : gset Z :=
  dom (data_store (startup clock)) ∪ list_to_set (created_ids (responses clock reqs)).

(** The demo item stored by iteration [i] of the startup loop. *)
Definition demo_item (i : nat) (clock : nat -> datetime) (item_data : ItemBase) : Item :=
  {| id := Z.of_nat i + 1; base := item_data;
     created_at := clock i; updated_at := clock i |}.

(** The constraints in the words of the data model: name non-empty and at
    most 100 characters, description at most 500 characters if present,
    price above zero, quantity not negative. *)
Definition satisfies_constraints (item : ItemBase) : Prop :=
  (1 ≤ String.length (name item) ≤ 100)%nat ∧
  (∀ d, description item = Some d → (String.length d ≤ 500)%nat) ∧
  SFltb float_zero (price item) = true ∧
  0 ≤ quantity item.

Definition violates_constraints (item : ItemBase) : Prop :=
  name item = "" ∨
  (100 < String.length (name item))%nat ∨
  (∃ d, description item = Some d ∧ (500 < String.length d)%nat) ∨
  SFleb (price item) float_zero = true ∨
  quantity item < 0.

(** The clock as the process reads it: one reading in each iteration of the
    startup loop, then the reading at each request served, in that order. *)
Definition readings (clock : nat -> datetime) (reqs : list (Request * datetime))
    : list datetime :=
  (clock <$> seq 0 (length demo_items)) ++ reqs.*2.

(** The clock never steps back: no reading is earlier than the one before. *)
Fixpoint nondecreasing (l : list datetime) : bool :=
  match l with
  | [] => true
  | t1 :: rest =>
      match rest with
      | [] => true
      | t2 :: _ => (t1 <=? t2) && nondecreasing rest
      end
  end.

(** ** Sample inputs *)

Definition f10_0 : float := S754_finite false 5629499534213120 (-49).
Definition f12_0 : float := S754_finite false 6755399441055744 (-49).

Definition widget : ItemBase :=
  {| name := "Widget"; description := None; price := f10_0; quantity := 5 |}.

Definition widget2 : ItemBase :=
  {| name := "Widget2"; description := None; price := f12_0; quantity := 3 |}.

Definition noon : nat -> datetime := λ _, 10.

(** A body whose price is minus infinity, and one whose price is -1.0. *)
Definition minus_infinity_price : ItemBase :=
  {| name := "Widget"; description := None; price := S754_infinity true;
     quantity := 5 |}.

Definition minus_one_price : ItemBase :=
  {| name := "Widget"; description := None;
     price := S754_finite true 4503599627370496 (-52); quantity := 5 |}.

(** ** Accounting of a run *)

(** The number of 204 answers: the deletes that removed an item. *)
Definition deleted_count (resps : list Response) : nat :=
  length (filter (λ resp, status resp = HTTP_204_NO_CONTENT) resps).

(** Every stored item meets the field constraints of [ItemBase]. *)
Definition items_valid (st : Store) : Prop :=
  ∀ k it, data_store st !! k = Some it → validate (base it) = [].

(** ** The store as an insertion-ordered dict

    A second embedding of the same handlers, with [data_store] kept as a
    Python dict keeps it: the entries in insertion order. It is what
    [list(data_store.values())] reads. The listing is studied on it, and
    it is shown to answer every request as the embedding above does. *)

Definition dict := list (Z * Item).

(** [k in d] and [d[k]]. *)
Fixpoint dict_get (k : Z) (d : dict) : option Item :=
  match d with
  | [] => None
  | (k', v) :: rest => if decide (k' = k) then Some v else dict_get k rest
  end.

(** [d[k] = v]: a key already present keeps its place, a new key goes last. *)
Fixpoint dict_set (k : Z) (v : Item) (d : dict) : dict :=
  match d with
  | [] => [(k, v)]
  | (k', v') :: rest =>
      if decide (k' = k) then (k, v) :: rest else (k', v') :: dict_set k v rest
  end.

(** [del d[k]]; [delete_item] reaches it only for a key that is present. *)
Fixpoint dict_del (k : Z) (d : dict) : dict :=
  match d with
  | [] => []
  | (k', v') :: rest =>
      if decide (k' = k) then rest else (k', v') :: dict_del k rest
  end.

(** [list(d.values())]. *)
Definition dict_values (d : dict) : list Item := d.*2.

Record PyStore := {
  py_data_store : dict;
  py_next_id : Z
}.

Definition py_module_globals : PyStore :=
  {| py_data_store := []; py_next_id := 1 |}.

Fixpoint py_initialize_loop (items : list ItemBase) (clock : nat -> datetime)
    (i : nat) (st : PyStore) : PyStore :=
  match items with
  | [] => st
  | item_data :: rest =>
      let now := clock i in
      let st' :=
        {| py_data_store :=
             dict_set (py_next_id st)
               {| id := py_next_id st; base := item_data;
                  created_at := now; updated_at := now |}
               (py_data_store st);
           py_next_id := py_next_id st + 1 |} in
      py_initialize_loop rest clock (S i) st'
  end.

Definition py_startup (clock : nat -> datetime) : PyStore :=
  py_initialize_loop demo_items clock 0%nat py_module_globals.

Definition py_get_all_items (st : PyStore) : Result (list Item) * PyStore :=
  (Return (dict_values (py_data_store st)), st).

Definition py_get_item_by_id (item_id : Z) (st : PyStore) : Result Item * PyStore :=
  match dict_get item_id (py_data_store st) with
  | None => (Raise (not_found item_id), st)
  | Some it => (Return it, st)
  end.

Definition py_create_item (item : ItemCreate) (now : datetime) (st : PyStore)
    : Result Item * PyStore :=
  let new_item :=
    {| id := py_next_id st; base := item; created_at := now; updated_at := now |} in
  (Return new_item,
   {| py_data_store := dict_set (py_next_id st) new_item (py_data_store st);
      py_next_id := py_next_id st + 1 |}).

Definition py_update_item (item_id : Z) (item : ItemUpdate) (now : datetime)
    (st : PyStore) : Result Item * PyStore :=
  match dict_get item_id (py_data_store st) with
  | None => (Raise (not_found item_id), st)
  | Some existing_item =>
      let updated_item :=
        {| id := item_id; base := item;
           created_at := created_at existing_item; updated_at := now |} in
      (Return updated_item,
       {| py_data_store := dict_set item_id updated_item (py_data_store st);
          py_next_id := py_next_id st |})
  end.

Definition py_delete_item (item_id : Z) (st : PyStore) : Result unit * PyStore :=
  match dict_get item_id (py_data_store st) with
  | None => (Raise (not_found item_id), st)
  | Some _ =>
      (Return tt,
       {| py_data_store := dict_del item_id (py_data_store st);
          py_next_id := py_next_id st |})
  end.

Definition py_validated {A : Type} (item : ItemBase)
    (handler : PyStore -> Result A * PyStore) (st : PyStore) : Result A * PyStore :=
  match validation_errors item with
  | [] => handler st
  | errors => (Raise (RequestValidationError errors), st)
  end.

Definition py_app (req : Request) (now : datetime) (st : PyStore)
    : Response * PyStore :=
  match req with
  | GET_items =>
      prod_map (respond HTTP_200_OK JsonItems) (λ s, s) (py_get_all_items st)
  | GET_items_id item_id =>
      prod_map (respond HTTP_200_OK JsonItem) (λ s, s) (py_get_item_by_id item_id st)
  | POST_items item =>
      prod_map (respond HTTP_201_CREATED JsonItem) (λ s, s)
               (py_validated item (py_create_item item now) st)
  | PUT_items_id item_id item =>
      prod_map (respond HTTP_200_OK JsonItem) (λ s, s)
               (py_validated item (py_update_item item_id item now) st)
  | DELETE_items_id item_id =>
      prod_map (respond HTTP_204_NO_CONTENT (λ _, NoBody)) (λ s, s)
               (py_delete_item item_id st)
  | GET_health =>
      ({| status := HTTP_200_OK; body := JsonMessage health_check |}, st)
  | GET_root =>
      ({| status := HTTP_200_OK; body := JsonMessage root |}, st)
  end.

Fixpoint py_run (reqs : list (Request * datetime)) (st : PyStore)
    : list Response * PyStore :=
  match reqs with
  | [] => ([], st)
  | (req, now) :: rest =>
      let '(resp, st') := py_app req now st in
      let '(resps, st'') := py_run rest st' in
      (resp :: resps, st'')
  end.

(** The mapping an ordered store stands for. *)
Definition abstract (st : PyStore) : Store :=
  {| data_store := list_to_map (py_data_store st); next_id := py_next_id st |}.

(** The keys are in increasing order and were issued by the counter. *)
Definition py_wf (st : PyStore) : Prop :=
  StronglySorted Z.lt (py_data_store st).*1 ∧
  Forall (λ k, 1 ≤ k < py_next_id st) (py_data_store st).*1 ∧
  1 ≤ py_next_id st.

(** ** Examples and proof tools *)

Example not_found_999 :
  not_found 999 = HTTPException 404 "Item with id 999 not found".
Proof. reflexivity. Qed.

Example not_found_negative :
  not_found (-5) = HTTPException 404 "Item with id -5 not found".
Proof. reflexivity. Qed.

Ltac unfold_handlers :=
  unfold app, validated, get_all_items, get_item_by_id, create_item,
    update_item, delete_item, prod_map, respond, not_found in *.

Ltac handler_cases :=
  repeat match goal with
  | |- context [match validation_errors ?b with _ => _ end] =>
      destruct (validation_errors b) eqn:?
  | |- context [match data_store ?st !! ?k with _ => _ end] =>
      destruct (data_store st !! k) eqn:?
  end;
  simpl;
  repeat match goal with
  | |- context [if ?c then {| status := HTTP_422_UNPROCESSABLE; body := _ |}
                else _] => destruct c eqn:?
  end.

Lemma validate_errors (item : ItemBase) :
  validate item = [] → validation_errors item = [].
Proof. unfold validate. apply fmap_nil_inv. Qed.

Lemma errors_validate (item : ItemBase) :
  validation_errors item = [] → validate item = [].
Proof. unfold validate. by intros ->. Qed.

Lemma run_app (pre post : list (Request * datetime)) (st : Store) :
  run (pre ++ post) st =
  ((run pre st).1 ++ (run post (run pre st).2).1, (run post (run pre st).2).2).
Proof.
  revert st. induction pre as [|[req now] pre IH]; intros st; simpl.
  - by destruct (run post st).
  - destruct (app req now st) as [resp st1]. rewrite IH.
    destruct (run pre st1) as [resps st2]. simpl.
    by destruct (run post st2).
Qed.

Lemma run_cons (req : Request) (now : datetime) (rest : list (Request * datetime))
    (st : Store) :
  run ((req, now) :: rest) st =
  ((app req now st).1 :: (run rest (app req now st).2).1,
   (run rest (app req now st).2).2).
Proof.
  simpl. destruct (app req now st) as [resp st1]. simpl.
  by destruct (run rest st1).
Qed.

Lemma app_next_id (req : Request) (now : datetime) (st : Store) :
  next_id st ≤ next_id (app req now st).2.
Proof.
  destruct req; unfold_handlers; handler_cases; simpl; lia.
Qed.

Lemma app_created (req : Request) (now : datetime) (st : Store) (i : Z) :
  created_id (app req now st).1 = Some i →
  i = next_id st ∧ next_id (app req now st).2 = next_id st + 1.
Proof.
  unfold created_id.
  destruct req; unfold_handlers; handler_cases; simpl;
    try discriminate; try (case_decide; discriminate).
  intros [= <-]. done.
Qed.

Lemma app_keys_below (req : Request) (now : datetime) (st : Store) :
  keys_below st → keys_below (app req now st).2.
Proof.
  intros [Hpos Hst].
  destruct req; unfold_handlers; handler_cases; simpl; try done;
    (split; simpl; [lia|]); intros k.
  - destruct (decide (next_id st = k)) as [<-|Hne].
    + lia.
    + rewrite lookup_insert_ne by done. intros Hk%Hst. lia.
  - destruct (decide (item_id = k)) as [<-|Hne].
    + intros _. apply Hst. eauto.
    + rewrite lookup_insert_ne by done. apply Hst.
  - destruct (decide (item_id = k)) as [<-|Hne].
    + rewrite lookup_delete_eq. by intros [? ?].
    + rewrite lookup_delete_ne by done. apply Hst.
Qed.

Lemma app_keyed (req : Request) (now : datetime) (st : Store) :
  keyed st → keyed (app req now st).2.
Proof.
  intros Hst.
  destruct req; unfold_handlers; handler_cases; simpl; try done;
    intros k it; simpl.
  - destruct (decide (next_id st = k)) as [<-|Hne].
    + rewrite lookup_insert_eq. by intros [= <-].
    + rewrite lookup_insert_ne by done. apply Hst.
  - destruct (decide (item_id = k)) as [<-|Hne].
    + rewrite lookup_insert_eq. by intros [= <-].
    + rewrite lookup_insert_ne by done. apply Hst.
  - destruct (decide (item_id = k)) as [<-|Hne].
    + by rewrite lookup_delete_eq.
    + rewrite lookup_delete_ne by done. apply Hst.
Qed.

Lemma run_next_id (reqs : list (Request * datetime)) (st : Store) :
  next_id st ≤ next_id (run reqs st).2.
Proof.
  revert st. induction reqs as [|[req now] reqs IH]; intros st.
  - simpl. lia.
  - rewrite run_cons. simpl.
    pose proof (app_next_id req now st). specialize (IH (app req now st).2). lia.
Qed.

Lemma run_keys_below (reqs : list (Request * datetime)) (st : Store) :
  keys_below st → keys_below (run reqs st).2.
Proof.
  revert st. induction reqs as [|[req now] reqs IH]; intros st Hst.
  - done.
  - rewrite run_cons. simpl. by apply IH, app_keys_below.
Qed.

Lemma run_keyed (reqs : list (Request * datetime)) (st : Store) :
  keyed st → keyed (run reqs st).2.
Proof.
  revert st. induction reqs as [|[req now] reqs IH]; intros st Hst.
  - done.
  - rewrite run_cons. simpl. by apply IH, app_keyed.
Qed.

(** The ids returned by [create_item] during a run lie between the
    counter before the run and the counter after it. *)
Lemma run_created_ids (reqs : list (Request * datetime)) (st : Store) (i : Z) :
  i ∈ created_ids (run reqs st).1 →
  next_id st ≤ i < next_id (run reqs st).2.
Proof.
  revert st. induction reqs as [|[req now] reqs IH]; intros st.
  - simpl. by intros ?%elem_of_nil.
  - rewrite run_cons. unfold created_ids. simpl.
    pose proof (app_next_id req now st) as Hmono.
    pose proof (run_next_id reqs (app req now st).2) as Hrest.
    destruct (created_id (app req now st).1) as [j|] eqn:Hj.
    + apply app_created in Hj as [-> Hnext].
      intros [->|Hin]%elem_of_cons; [lia|].
      apply IH in Hin. lia.
    + intros Hin. apply IH in Hin. lia.
Qed.

(** *** The store at startup *)

Lemma initialize_loop_keys_below items clock i st :
  keys_below st → keys_below (initialize_loop items clock i st).
Proof.
  revert i st. induction items as [|item_data rest IH]; intros i st [Hpos Hst].
  - done.
  - simpl. apply IH. split; simpl; [lia|]. intros k.
    destruct (decide (next_id st = k)) as [<-|Hne].
    + lia.
    + rewrite lookup_insert_ne by done. intros Hk%Hst. lia.
Qed.

Lemma initialize_loop_keyed items clock i st :
  keyed st → keyed (initialize_loop items clock i st).
Proof.
  revert i st. induction items as [|item_data rest IH]; intros i st Hst.
  - done.
  - simpl. apply IH. intros k it. simpl.
    destruct (decide (next_id st = k)) as [<-|Hne].
    + rewrite lookup_insert_eq. by intros [= <-].
    + rewrite lookup_insert_ne by done. apply Hst.
Qed.

Lemma startup_keys_below clock : keys_below (startup clock).
Proof.
  apply initialize_loop_keys_below. split; simpl; [lia|]. intros k.
  rewrite lookup_empty. by intros [? ?].
Qed.

Lemma startup_keyed clock : keyed (startup clock).
Proof.
  apply initialize_loop_keyed. intros k it. simpl. by rewrite lookup_empty.
Qed.

Lemma state_after_keys_below clock reqs : keys_below (state_after clock reqs).
Proof. apply run_keys_below, startup_keys_below. Qed.

Lemma state_after_keyed clock reqs : keyed (state_after clock reqs).
Proof. apply run_keyed, startup_keyed. Qed.

Lemma state_after_app clock pre post :
  state_after clock (pre ++ post) = (run post (state_after clock pre)).2.
Proof. unfold state_after. by rewrite run_app. Qed.

(** ** Identifiers *)

(** C1. Ids are strictly increasing and never reused: an id returned by
    [create_item] while [post] is served is strictly greater than every id
    issued before ([pre] served since startup): the ids of the demo items
    and every id returned by an earlier create, deleted since or not. *)
Theorem create_ids_strictly_increasing (clock : nat -> datetime)
    (pre post : list (Request * datetime)) (k i : Z) :
  k ∈ ids_issued clock pre →
  i ∈ created_ids (run post (state_after clock pre)).1 →
  k < i.
Proof.
  intros Hk Hi. apply run_created_ids in Hi as [Hi _].
  unfold ids_issued, responses in Hk. apply elem_of_union in Hk as [Hk|Hk].
  - apply elem_of_dom, startup_keys_below in Hk.
    pose proof (run_next_id pre (startup clock)). unfold state_after in Hi. lia.
  - apply elem_of_list_to_set, run_created_ids in Hk. unfold state_after in Hi. lia.
Qed.

(** The id 6 is issued, its item deleted, and the next create returns 7. *)
Lemma create_ids_strictly_increasing_witness :
  6 ∈ ids_issued noon [(POST_items widget, 11); (DELETE_items_id 6, 12)] ∧
  7 ∈ created_ids
        (run [(POST_items widget2, 13)]
             (state_after noon [(POST_items widget, 11); (DELETE_items_id 6, 12)])).1 ∧
  6 < 7.
Proof.
  assert (H1 : 6 ∈ ids_issued noon [(POST_items widget, 11); (DELETE_items_id 6, 12)]).
  { apply (bool_decide_unpack _). vm_compute. exact I. }
  assert (H2 : 7 ∈ created_ids
        (run [(POST_items widget2, 13)]
             (state_after noon [(POST_items widget, 11); (DELETE_items_id 6, 12)])).1).
  { apply (bool_decide_unpack _). vm_compute. exact I. }
  exact (conj H1 (conj H2 (create_ids_strictly_increasing _ _ _ _ _ H1 H2))).
Defined.

(** C8. After any sequence of requests the mapping is keyed by the item's
    own id, so no two entries carry the same id. *)
Theorem store_keyed_by_id (clock : nat -> datetime)
    (reqs : list (Request * datetime)) (k : Z) (it : Item) :
  data_store (state_after clock reqs) !! k = Some it →
  id it = k ∧
  ∀ k' it', data_store (state_after clock reqs) !! k' = Some it' →
            id it' = id it → k' = k.
Proof.
  intros Hk. pose proof (state_after_keyed clock reqs) as Hkeyed.
  split; [by apply Hkeyed|].
  intros k' it' Hk' Hid.
  apply Hkeyed in Hk, Hk'. congruence.
Qed.

Lemma store_keyed_by_id_witness :
  data_store
    (state_after noon [(POST_items widget, 11); (PUT_items_id 6 widget2, 12);
                       (DELETE_items_id 2, 13)]) !! 6
  = Some {| id := 6; base := widget2; created_at := 11; updated_at := 12 |} ∧
  6 = 6.
Proof.
  assert (H : data_store
    (state_after noon [(POST_items widget, 11); (PUT_items_id 6 widget2, 12);
                       (DELETE_items_id 2, 13)]) !! 6
    = Some {| id := 6; base := widget2; created_at := 11; updated_at := 12 |}).
  { vm_compute. reflexivity. }
  exact (conj H (proj1 (store_keyed_by_id _ _ _ _ H))).
Defined.

(** ** Startup *)

(** C9. When the module is loaded the store holds exactly the five demo
    items under the ids 1 to 5, each with [created_at = updated_at], the
    counter is 6, and the first item a client creates gets the id 6. *)
Theorem startup_store (clock : nat -> datetime) :
  data_store (startup clock) ≠ ∅ ∧
  data_store (startup clock) =
    list_to_map (imap (λ i item_data, (Z.of_nat i + 1, demo_item i clock item_data))
                      demo_items) ∧
  dom (data_store (startup clock)) = {[1; 2; 3; 4; 5]} ∧
  size (data_store (startup clock)) = 5%nat ∧
  map_Forall (λ k it, id it = k ∧ created_at it = updated_at it)
             (data_store (startup clock)) ∧
  next_id (startup clock) = 6 ∧
  ∀ (item : ItemCreate) (now : datetime),
    (create_item item now (startup clock)).1 =
    Return {| id := 6; base := item; created_at := now; updated_at := now |}.
Proof.
  assert (Hstore : data_store (startup clock) =
    list_to_map (imap (λ i item_data, (Z.of_nat i + 1, demo_item i clock item_data))
                      demo_items)) by reflexivity.
  assert (Hdom : dom (data_store (startup clock)) = ({[1; 2; 3; 4; 5]} : gset Z)).
  { rewrite Hstore. simpl. rewrite !dom_insert_L, dom_empty_L. set_solver. }
  split; [|split; [exact Hstore|split; [exact Hdom|split; [|split; [|split]]]]].
  - intros Hempty. rewrite Hempty, dom_empty_L in Hdom. set_solver.
  - rewrite <- size_dom, Hdom. reflexivity.
  - rewrite Hstore. simpl.
    repeat (apply map_Forall_insert_2; [done|]). apply map_Forall_empty.
  - reflexivity.
  - intros item now. reflexivity.
Qed.

(** ** Create and get *)

(** C2. For valid fields, creating an item and then getting it by the
    returned id succeeds and yields an item with exactly those fields,
    whose [created_at] equals its [updated_at]. *)
Theorem create_then_get (item : ItemCreate) (now now' : datetime) (st : Store) :
  validate item = [] →
  ∃ (it : Item) (st' : Store),
    app (POST_items item) now st =
      ({| status := HTTP_201_CREATED; body := JsonItem it |}, st') ∧
    app (GET_items_id (id it)) now' st' =
      ({| status := HTTP_200_OK; body := JsonItem it |}, st') ∧
    get_item_by_id (id it) st' = (Return it, st') ∧
    name (base it) = name item ∧
    description (base it) = description item ∧
    price (base it) = price item ∧
    quantity (base it) = quantity item ∧
    created_at it = updated_at it.
Proof.
  intros Hvalid.
  exists {| id := next_id st; base := item; created_at := now; updated_at := now |}.
  eexists. unfold_handlers. rewrite (validate_errors _ Hvalid). simpl.
  split; [reflexivity|]. simpl. rewrite lookup_insert_eq. simpl.
  split_and!; reflexivity.
Qed.

Lemma create_then_get_witness :
  validate widget = [] ∧
  ∃ (it : Item) (st' : Store),
    app (POST_items widget) 11 (startup noon) =
      ({| status := HTTP_201_CREATED; body := JsonItem it |}, st') ∧
    app (GET_items_id (id it)) 12 st' =
      ({| status := HTTP_200_OK; body := JsonItem it |}, st') ∧
    get_item_by_id (id it) st' = (Return it, st') ∧
    name (base it) = name widget ∧
    description (base it) = description widget ∧
    price (base it) = price widget ∧
    quantity (base it) = quantity widget ∧
    created_at it = updated_at it.
Proof.
  assert (H : validate widget = []) by reflexivity.
  exact (conj H (create_then_get widget 11 12 (startup noon) H)).
Defined.


(** ** NotFound *)

(** C4. [get_item_by_id] returns the stored item exactly when the id is
    present and raises 404 with the detail "Item with id {id} not found"
    exactly when it is absent; [update_item] and [delete_item] raise the
    same exception under the same condition. *)
Theorem not_found_exactly_when_absent (st : Store) (item_id : Z)
    (item : ItemUpdate) (now : datetime) :
  (∀ it, get_item_by_id item_id st = (Return it, st) ↔
         data_store st !! item_id = Some it) ∧
  (get_item_by_id item_id st =
     (Raise (HTTPException 404 ("Item with id " +:+ pretty item_id +:+ " not found")), st)
   ↔ data_store st !! item_id = None) ∧
  ((update_item item_id item now st).1 =
     Raise (HTTPException 404 ("Item with id " +:+ pretty item_id +:+ " not found"))
   ↔ data_store st !! item_id = None) ∧
  ((delete_item item_id st).1 =
     Raise (HTTPException 404 ("Item with id " +:+ pretty item_id +:+ " not found"))
   ↔ data_store st !! item_id = None) ∧
  ((app (GET_items_id item_id) now st).1 =
     {| status := 404;
        body := JsonDetail ("Item with id " +:+ pretty item_id +:+ " not found") |}
   ↔ data_store st !! item_id = None) ∧
  ((∃ e, (get_item_by_id item_id st).1 = Raise e) ↔ data_store st !! item_id = None) ∧
  ((∃ e, (update_item item_id item now st).1 = Raise e) ↔ data_store st !! item_id = None) ∧
  ((∃ e, (delete_item item_id st).1 = Raise e) ↔ data_store st !! item_id = None).
Proof.
  unfold_handlers.
  destruct (data_store st !! item_id) as [existing|] eqn:Hlook; simpl.
  - split_and!; try (intros it); split; try discriminate; try congruence.
    all: by intros [? ?].
  - split_and!; try (intros it); split; try discriminate; try done.
    all: by eauto.
Qed.

(** ** Delete *)

(** A key below the counter that is absent stays absent: [create_item]
    only ever inserts at the counter, [update_item] only at a key present. *)
Lemma app_absent (req : Request) (now : datetime) (st : Store) (k : Z) :
  k < next_id st → data_store st !! k = None →
  data_store (app req now st).2 !! k = None.
Proof.
  intros Hk Habsent.
  destruct req; unfold_handlers; handler_cases; simpl; try done.
  - rewrite lookup_insert_ne by lia. done.
  - rewrite lookup_insert_ne by congruence. done.
  - destruct (decide (item_id = k)) as [<-|Hne].
    + by rewrite lookup_delete_eq.
    + by rewrite lookup_delete_ne.
Qed.

Lemma run_absent (reqs : list (Request * datetime)) (st : Store) (k : Z) :
  k < next_id st → data_store st !! k = None →
  data_store (run reqs st).2 !! k = None.
Proof.
  revert st. induction reqs as [|[req now] reqs IH]; intros st Hk Habsent.
  - done.
  - rewrite run_cons. simpl. apply IH.
    + pose proof (app_next_id req now st). lia.
    + by apply app_absent.
Qed.

(** C5. For an id present in the store, [delete_item] succeeds with no
    content and removes the item from the mapping, and after any further
    requests get, update and delete on that id raise NotFound. *)
Theorem delete_then_not_found (clock : nat -> datetime)
    (pre later : list (Request * datetime)) (item_id : Z) (item : ItemUpdate)
    (now now' : datetime) :
  is_Some (data_store (state_after clock pre) !! item_id) →
  ∃ st' : Store,
    delete_item item_id (state_after clock pre) = (Return tt, st') ∧
    app (DELETE_items_id item_id) now (state_after clock pre) =
      ({| status := HTTP_204_NO_CONTENT; body := NoBody |}, st') ∧
    data_store st' = delete item_id (data_store (state_after clock pre)) ∧
    data_store st' !! item_id = None ∧
    data_store (run later st').2 !! item_id = None ∧
    (get_item_by_id item_id (run later st').2).1 = Raise (not_found item_id) ∧
    (update_item item_id item now' (run later st').2).1 = Raise (not_found item_id) ∧
    (delete_item item_id (run later st').2).1 = Raise (not_found item_id).
Proof.
  intros Hpresent.
  pose proof (proj2 (state_after_keys_below clock pre) item_id Hpresent) as Hbelow.
  destruct Hpresent as [existing Hlook].
  exists {| data_store := delete item_id (data_store (state_after clock pre));
            next_id := next_id (state_after clock pre) |}.
  split; [|split; [|split; [reflexivity|]]].
  - unfold delete_item. rewrite Hlook. reflexivity.
  - unfold app, delete_item. rewrite Hlook. reflexivity.
  - simpl.
    assert (Hgone : data_store
              (run later {| data_store := delete item_id (data_store (state_after clock pre));
                            next_id := next_id (state_after clock pre) |}).2 !! item_id
            = None).
    { apply run_absent; simpl; [lia|apply lookup_delete_eq]. }
    unfold get_item_by_id, update_item, delete_item. rewrite Hgone.
    split_and!; try reflexivity. apply lookup_delete_eq.
Qed.

(** The demo item 3 is deleted; two creates and an update of 3 later it is
    still not found. *)
Lemma delete_then_not_found_witness :
  is_Some (data_store (state_after noon [(POST_items widget, 11)]) !! 3) ∧
  ∃ st' : Store,
    delete_item 3 (state_after noon [(POST_items widget, 11)]) = (Return tt, st') ∧
    app (DELETE_items_id 3) 12 (state_after noon [(POST_items widget, 11)]) =
      ({| status := HTTP_204_NO_CONTENT; body := NoBody |}, st') ∧
    data_store st' = delete 3 (data_store (state_after noon [(POST_items widget, 11)])) ∧
    data_store st' !! 3 = None ∧
    data_store (run [(POST_items widget2, 13); (PUT_items_id 3 widget, 14)] st').2 !! 3
      = None ∧
    (get_item_by_id 3
       (run [(POST_items widget2, 13); (PUT_items_id 3 widget, 14)] st').2).1
      = Raise (not_found 3) ∧
    (update_item 3 widget2 15
       (run [(POST_items widget2, 13); (PUT_items_id 3 widget, 14)] st').2).1
      = Raise (not_found 3) ∧
    (delete_item 3
       (run [(POST_items widget2, 13); (PUT_items_id 3 widget, 14)] st').2).1
      = Raise (not_found 3).
Proof.
  assert (H : is_Some (data_store (state_after noon [(POST_items widget, 11)]) !! 3)).
  { vm_compute. eexists. reflexivity. }
  exact (conj H (delete_then_not_found noon [(POST_items widget, 11)]
                   [(POST_items widget2, 13); (PUT_items_id 3 widget, 14)]
                   3 widget2 12 15 H)).
Defined.

(** C10. A NotFound failure changes nothing: when [get_item_by_id],
    [update_item] or [delete_item] raises, the exception is the 404 for
    that id, the id is absent, and the store returned (mapping and
    counter) is the one received. *)
Theorem not_found_is_atomic (st st' : Store) (item_id : Z) (item : ItemUpdate)
    (now : datetime) (e : Exception) :
  get_item_by_id item_id st = (Raise e, st') ∨
  update_item item_id item now st = (Raise e, st') ∨
  delete_item item_id st = (Raise e, st') →
  st' = st ∧ data_store st' = data_store st ∧ next_id st' = next_id st ∧
  e = not_found item_id ∧ data_store st !! item_id = None.
Proof.
  unfold get_item_by_id, update_item, delete_item.
  destruct (data_store st !! item_id) as [existing|]; simpl.
  - intros [H|[H|H]]; discriminate.
  - intros [H|[H|H]]; injection H as <- <-; done.
Qed.

Lemma not_found_is_atomic_witness :
  (get_item_by_id 999 (startup noon) = (Raise (not_found 999), startup noon) ∨
   update_item 999 widget 11 (startup noon) = (Raise (not_found 999), startup noon) ∨
   delete_item 999 (startup noon) = (Raise (not_found 999), startup noon)) ∧
  startup noon = startup noon ∧
  data_store (startup noon) = data_store (startup noon) ∧
  next_id (startup noon) = next_id (startup noon) ∧
  not_found 999 = not_found 999 ∧ data_store (startup noon) !! 999 = None.
Proof.
  assert (H : get_item_by_id 999 (startup noon) = (Raise (not_found 999), startup noon) ∨
   update_item 999 widget 11 (startup noon) = (Raise (not_found 999), startup noon) ∨
   delete_item 999 (startup noon) = (Raise (not_found 999), startup noon)).
  { left. reflexivity. }
  exact (conj H (not_found_is_atomic _ _ 999 widget 11 _ H)).
Defined.

(** The routes agree: a request answered 404 leaves the store as it was. *)
Lemma app_404_atomic (req : Request) (now : datetime) (st : Store) :
  status (app req now st).1 = HTTP_404_NOT_FOUND → (app req now st).2 = st.
Proof.
  destruct req; unfold_handlers; handler_cases; simpl; try done.
Qed.

(** ** Validation *)

Lemma validate_nil (item : ItemBase) :
  validate item = [] ↔
  name_ok (name item) = true ∧ description_ok (description item) = true ∧
  price_ok (price item) = true ∧ quantity_ok (quantity item) = true.
Proof.
  unfold validate, validation_errors, check.
  destruct (name_ok _), (description_ok _), (price_ok _), (quantity_ok _);
    simpl; split; try done; intros (? & ? & ? & ?); done.
Qed.

Lemma name_ok_spec (s : string) :
  name_ok s = true ↔ (1 ≤ String.length s ≤ 100)%nat.
Proof.
  unfold name_ok. rewrite andb_true_iff, !Nat.leb_le. done.
Qed.

Lemma description_ok_spec (d : option string) :
  description_ok d = true ↔ ∀ s, d = Some s → (String.length s ≤ 500)%nat.
Proof.
  destruct d as [s|]; simpl.
  - rewrite Nat.leb_le. split; [by intros ? ? [= <-]|eauto].
  - split; [done|reflexivity].
Qed.

(** A price that compares below or equal to zero does not compare above it. *)
Lemma price_le_zero_not_ok (p : float) :
  SFleb p float_zero = true → price_ok p = false.
Proof.
  unfold price_ok, float_zero, SFleb, SFltb.
  destruct p as [s|s| |s m e]; simpl; try done; by destruct s.
Qed.

Lemma satisfies_validate (item : ItemBase) :
  satisfies_constraints item ↔ validate item = [].
Proof.
  rewrite validate_nil, name_ok_spec, description_ok_spec.
  unfold satisfies_constraints, price_ok, quantity_ok.
  rewrite Z.leb_le. done.
Qed.

Lemma violates_validate (item : ItemBase) :
  violates_constraints item → validate item ≠ [].
Proof.
  intros Hbad Hnil. apply validate_nil in Hnil as (Hn & Hd & Hp & Hq).
  apply name_ok_spec in Hn. apply Z.leb_le in Hq.
  destruct Hbad as [H|[H|[(d & Hsome & H)|[H|H]]]].
  - rewrite H in Hn. simpl in Hn. lia.
  - lia.
  - pose proof (proj1 (description_ok_spec _) Hd d Hsome). lia.
  - apply price_le_zero_not_ok in H. congruence.
  - lia.
Qed.

(** The errors of a body cannot be written as JSON exactly when its price
    is a NaN or minus infinity: price is the one float field, and plus
    infinity passes its check. *)
Lemma errors_not_encodable (item : ItemBase) :
  forallb encodable (validation_errors item).*2 = false ↔
  price item = S754_nan ∨ price item = S754_infinity true.
Proof.
  unfold validation_errors, check, price_ok, SFltb, float_zero.
  destruct (name_ok _), (description_ok _), (quantity_ok _), (description item);
    destruct (price item) as [sg|sg| |sg m e]; try destruct sg; simpl;
    split; try done; try (intros [?|?]; done); eauto.
Qed.


(** C6. On create and update, fields that violate a constraint (name empty
    or longer than 100, description longer than 500, price at most zero,
    quantity negative) are refused with a validation error that names the
    failing fields: the handler does not run and no item is inserted or
    modified. Fields that satisfy all constraints pass validation and
    reach the handler. The refusal is answered 422 with the names of the
    failing fields, except that the route answers 500 when the refused
    price is a NaN or minus infinity. *)
Theorem validation_rejects_and_accepts (item : ItemBase) (item_id : Z)
    (now : datetime) (st : Store) :
  (violates_constraints item →
   ∃ errors, errors ≠ [] ∧ errors.*1 = validate item ∧
     validated item (create_item item now) st =
       (Raise (RequestValidationError errors), st) ∧
     validated item (update_item item_id item now) st =
       (Raise (RequestValidationError errors), st) ∧
     (app (POST_items item) now st).2 = st ∧
     (app (PUT_items_id item_id item) now st).2 = st ∧
     (app (PUT_items_id item_id item) now st).1 = (app (POST_items item) now st).1 ∧
     (¬ (price item = S754_nan ∨ price item = S754_infinity true) →
      (app (POST_items item) now st).1 =
        {| status := HTTP_422_UNPROCESSABLE; body := JsonErrors (validate item) |}) ∧
     (price item = S754_nan ∨ price item = S754_infinity true →
      (app (POST_items item) now st).1 =
        {| status := HTTP_500_INTERNAL_SERVER_ERROR;
           body := PlainText "Internal Server Error" |})) ∧
  (satisfies_constraints item →
   validate item = [] ∧
   app (POST_items item) now st =
     ({| status := HTTP_201_CREATED;
         body := JsonItem {| id := next_id st; base := item;
                             created_at := now; updated_at := now |} |},
      (create_item item now st).2) ∧
   app (PUT_items_id item_id item) now st =
     prod_map (respond HTTP_200_OK JsonItem) (λ s, s)
              (update_item item_id item now st)) ∧
  (validate item = [] ↔ satisfies_constraints item).
Proof.
  split_and!.
  - intros Hbad%violates_validate.
    pose proof (errors_not_encodable item) as Henc.
    exists (validation_errors item).
    unfold validate in *. unfold app, validated, prod_map, respond.
    destruct (validation_errors item) as [|e errors] eqn:Herrors; [done|].
    simpl in *. split_and!; try reflexivity; try done.
    + intros Hprice.
      match goal with |- (if ?c then _ else _) = _ => destruct c eqn:Hb end.
      * done.
      * exfalso. by apply Hprice, Henc.
    + intros Hprice%Henc. by rewrite Hprice.
  - intros Hok%satisfies_validate. split; [done|].
    unfold app, validated. rewrite (validate_errors _ Hok). split; reflexivity.
  - symmetry. apply satisfies_validate.
Qed.

(** The price minus infinity is a price <= 0: the body is refused and the
    store is left as it was, with the answer 500, where the finite price
    -1.0 is answered 422. *)
Example minus_infinity_price_answered_500 :
  violates_constraints minus_infinity_price ∧
  validate minus_infinity_price = ["price"] ∧
  app (POST_items minus_infinity_price) 11 (startup noon) =
    ({| status := 500; body := PlainText "Internal Server Error" |}, startup noon) ∧
  app (PUT_items_id 1 minus_infinity_price) 11 (startup noon) =
    ({| status := 500; body := PlainText "Internal Server Error" |}, startup noon) ∧
  app (POST_items minus_one_price) 11 (startup noon) =
    ({| status := 422; body := JsonErrors ["price"] |}, startup noon) ∧
  app (PUT_items_id 1 minus_one_price) 11 (startup noon) =
    ({| status := 422; body := JsonErrors ["price"] |}, startup noon).
Proof.
  split_and!; try reflexivity.
  unfold violates_constraints. do 3 right. left. reflexivity.
Qed.

Example nan_price_answered_500 :
  app (POST_items {| name := "Widget"; description := None; price := S754_nan;
                     quantity := 5 |}) 11 (startup noon)
  = ({| status := 500; body := PlainText "Internal Server Error" |}, startup noon).
Proof. reflexivity. Qed.

Example plus_infinity_price_accepted :
  validate {| name := "Widget"; description := None; price := S754_infinity false;
              quantity := 5 |} = [].
Proof. reflexivity. Qed.

Example nan_price_rejected :
  validate {| name := "Widget"; description := None; price := S754_nan;
              quantity := 5 |} = ["price"].
Proof. reflexivity. Qed.

Example negative_zero_price_rejected :
  validate {| name := "Widget"; description := None; price := S754_zero true;
              quantity := 5 |} = ["price"].
Proof. reflexivity. Qed.

Example every_field_rejected :
  validate {| name := ""; description := Some (String.concat "" (replicate 501 "d"));
              price := float_zero; quantity := -1 |}
  = ["name"; "description"; "price"; "quantity"].
Proof. vm_compute. reflexivity. Qed.

Example invalid_update_of_absent_id :
  app (PUT_items_id 999 {| name := ""; description := None; price := f10_0;
                           quantity := 5 |}) 11 (startup noon)
  = ({| status := 422; body := JsonErrors ["name"] |}, startup noon).
Proof. reflexivity. Qed.

(** ** Timestamps *)

Lemma app_created_at (req : Request) (now : datetime) (st : Store) (k : Z)
    (it it' : Item) :
  keys_below st →
  data_store st !! k = Some it →
  data_store (app req now st).2 !! k = Some it' →
  created_at it' = created_at it.
Proof.
  intros [_ Hbelow] Hk.
  assert (k < next_id st) as Hlt by (apply Hbelow; eauto).
  destruct req; unfold_handlers; handler_cases; simpl; try congruence.
  - rewrite lookup_insert_ne by lia. congruence.
  - destruct (decide (item_id = k)) as [->|Hne].
    + rewrite lookup_insert_eq. intros [= <-]. simpl. congruence.
    + rewrite lookup_insert_ne by done. congruence.
  - destruct (decide (item_id = k)) as [->|Hne].
    + by rewrite lookup_delete_eq.
    + rewrite lookup_delete_ne by done. congruence.
Qed.

Lemma run_created_at (reqs : list (Request * datetime)) (st : Store) (k : Z)
    (it it' : Item) :
  keys_below st →
  data_store st !! k = Some it →
  data_store (run reqs st).2 !! k = Some it' →
  created_at it' = created_at it.
Proof.
  revert st it. induction reqs as [|[req now] reqs IH]; intros st it Hbelow Hk.
  - simpl. congruence.
  - rewrite run_cons. simpl. intros Hk'.
    assert (k < next_id st) as Hlt by (apply (proj2 Hbelow); eauto).
    destruct (data_store (app req now st).2 !! k) as [it1|] eqn:Hk1.
    + rewrite <- (app_created_at req now st k it it1) by done.
      apply (IH (app req now st).2); [by apply app_keys_below|done..].
    + rewrite run_absent in Hk'; [done| |done].
      pose proof (app_next_id req now st). lia.
Qed.

Lemma nondecreasing_cons (t1 t2 : datetime) (l : list datetime) :
  nondecreasing (t1 :: t2 :: l) = true ↔
  t1 ≤ t2 ∧ nondecreasing (t2 :: l) = true.
Proof.
  change (nondecreasing (t1 :: t2 :: l))
    with ((t1 <=? t2) && nondecreasing (t2 :: l)).
  by rewrite andb_true_iff, Z.leb_le.
Qed.

Lemma timestamps_bounded_mono (t t' : datetime) (st : Store) :
  t ≤ t' → timestamps_bounded t st → timestamps_bounded t' st.
Proof. intros Hle Hst k it Hk. destruct (Hst k it Hk). lia. Qed.

(** One request served at a reading not earlier than the timestamps
    stored: they are then not later than that reading. *)
Lemma app_timestamps_bounded (req : Request) (now t : datetime) (st : Store) :
  timestamps_bounded t st → t ≤ now →
  timestamps_bounded now (app req now st).2.
Proof.
  intros Hst Hle. pose proof (timestamps_bounded_mono t now st Hle Hst) as Hnow.
  destruct req; unfold_handlers; handler_cases; simpl; try done;
    intros k it; simpl.
  - destruct (decide (next_id st = k)) as [<-|Hne].
    + rewrite lookup_insert_eq. intros [= <-]. simpl. lia.
    + rewrite lookup_insert_ne by done. apply Hnow.
  - destruct (decide (item_id = k)) as [<-|Hne].
    + rewrite lookup_insert_eq. intros [= <-]. simpl.
      destruct (Hst item_id _ ltac:(eassumption)). lia.
    + rewrite lookup_insert_ne by done. apply Hnow.
  - destruct (decide (item_id = k)) as [<-|Hne].
    + by rewrite lookup_delete_eq.
    + rewrite lookup_delete_ne by done. apply Hnow.
Qed.

Lemma run_timestamps_bounded (reqs : list (Request * datetime)) (st : Store)
    (t : datetime) (later : list datetime) :
  timestamps_bounded t st →
  nondecreasing (t :: reqs.*2 ++ later) = true →
  ∃ t', timestamps_bounded t' (run reqs st).2 ∧
        nondecreasing (t' :: later) = true.
Proof.
  revert st t. induction reqs as [|[req now] reqs IH]; intros st t Hst Hclock.
  - exists t. done.
  - rewrite run_cons. simpl in *.
    apply nondecreasing_cons in Hclock as [Hle Hclock].
    apply (IH _ now); [|done]. by apply app_timestamps_bounded with t.
Qed.

Lemma initialize_loop_timestamps_bounded (items : list ItemBase)
    (clock : nat -> datetime) (i : nat) (st : Store) (t : datetime)
    (later : list datetime) :
  timestamps_bounded t st →
  nondecreasing (t :: (clock <$> seq i (length items)) ++ later) = true →
  ∃ t', timestamps_bounded t' (initialize_loop items clock i st) ∧
        nondecreasing (t' :: later) = true.
Proof.
  revert i st t. induction items as [|item_data rest IH]; intros i st t Hst Hclock.
  - exists t. done.
  - simpl in *. apply nondecreasing_cons in Hclock as [Hle Hclock].
    apply (IH _ _ (clock i)); [|done].
    intros k it. simpl.
    destruct (decide (next_id st = k)) as [<-|Hne].
    + rewrite lookup_insert_eq. intros [= <-]. simpl. lia.
    + rewrite lookup_insert_ne by done. intros Hk.
      destruct (Hst k it Hk). lia.
Qed.

(** When the clock never steps back, no timestamp in the store is later
    than the last reading taken, and the readings still to come are not
    earlier than it. *)
Lemma state_after_timestamps_bounded (clock : nat -> datetime)
    (reqs : list (Request * datetime)) (later : list datetime) :
  nondecreasing (readings clock reqs ++ later) = true →
  ∃ t', timestamps_bounded t' (state_after clock reqs) ∧
        nondecreasing (t' :: later) = true.
Proof.
  unfold readings, state_after, startup, initialize_demo_data.
  rewrite <- app_assoc. intros Hclock.
  destruct (initialize_loop_timestamps_bounded demo_items clock 0 module_globals
              (clock 0%nat) (reqs.*2 ++ later)) as (t1 & Hstart & Hclock1).
  - intros k it. simpl. by rewrite lookup_empty.
  - change (clock <$> seq 0 (length demo_items))
      with (clock 0%nat :: (clock <$> seq 1 4)) in *.
    apply nondecreasing_cons. split; [lia|done].
  - by apply (run_timestamps_bounded reqs _ t1).
Qed.

(** C3 as stated does not hold: [update_item] stores the reading of
    [datetime.now()] whatever the previous [updated_at] was, and the wall
    clock can be set back. *)
Lemma update_item_clock_counterexample :
  ¬ (∀ (clock : nat -> datetime) (reqs : list (Request * datetime))
       (item_id : Z) (old : Item) (item : ItemUpdate) (now : datetime)
       (new : Item) (st' : Store),
       data_store (state_after clock reqs) !! item_id = Some old →
       validate item = [] →
       update_item item_id item now (state_after clock reqs) = (Return new, st') →
       id new = id old ∧ created_at new = created_at old ∧ base new = item ∧
       updated_at new = now ∧ updated_at old ≤ updated_at new).
Proof.
  intros H.
  specialize (H noon [] 1 (demo_item 0 noon wireless_mouse) widget2 5
                _ _ eq_refl eq_refl eq_refl).
  destruct H as (_ & _ & _ & _ & H). vm_compute in H. by apply H.
Qed.

(** C3, amended. For an id present in the store and valid replacement
    fields, [update_item] keeps the item's id and [created_at], overwrites
    name, description, price and quantity, sets [updated_at] to the clock
    reading of the call, stores the item under the same key, leaves the
    other entries and the counter alone, and returns the item. On every
    run in which the clock never stepped back, from startup to the reading
    this update takes, [updated_at] is not earlier than the previous
    [updated_at]. *)
Theorem update_item_frame (clock : nat -> datetime)
    (reqs : list (Request * datetime)) (item_id : Z) (old : Item)
    (item : ItemUpdate) (now : datetime) :
  data_store (state_after clock reqs) !! item_id = Some old →
  validate item = [] →
  ∃ (new : Item) (st' : Store),
    app (PUT_items_id item_id item) now (state_after clock reqs) =
      ({| status := HTTP_200_OK; body := JsonItem new |}, st') ∧
    update_item item_id item now (state_after clock reqs) = (Return new, st') ∧
    id new = id old ∧
    created_at new = created_at old ∧
    base new = item ∧
    updated_at new = now ∧
    data_store st' = <[item_id := new]> (data_store (state_after clock reqs)) ∧
    next_id st' = next_id (state_after clock reqs) ∧
    (nondecreasing (readings clock reqs ++ [now]) = true →
     updated_at old ≤ updated_at new).
Proof.
  intros Hold Hvalid.
  pose proof (state_after_keyed clock reqs _ _ Hold) as Hid.
  eexists _, _. unfold_handlers. rewrite (validate_errors _ Hvalid), Hold. simpl.
  split_and!; try reflexivity; try done.
  intros Hclock.
  apply state_after_timestamps_bounded in Hclock as (t & Hbounded & Hlast).
  apply nondecreasing_cons in Hlast as [Hlast _].
  destruct (Hbounded _ _ Hold). simpl. lia.
Qed.

Lemma update_item_frame_witness :
  data_store (state_after noon [(POST_items widget, 11)]) !! 1
    = Some (demo_item 0 noon wireless_mouse) ∧
  validate widget2 = [] ∧
  nondecreasing (readings noon [(POST_items widget, 11)] ++ [12]) = true ∧
  ∃ (new : Item) (st' : Store),
    app (PUT_items_id 1 widget2) 12 (state_after noon [(POST_items widget, 11)]) =
      ({| status := HTTP_200_OK; body := JsonItem new |}, st') ∧
    update_item 1 widget2 12 (state_after noon [(POST_items widget, 11)])
      = (Return new, st') ∧
    id new = id (demo_item 0 noon wireless_mouse) ∧
    created_at new = created_at (demo_item 0 noon wireless_mouse) ∧
    base new = widget2 ∧
    updated_at new = 12 ∧
    data_store st' =
      <[1 := new]> (data_store (state_after noon [(POST_items widget, 11)])) ∧
    next_id st' = next_id (state_after noon [(POST_items widget, 11)]) ∧
    (nondecreasing (readings noon [(POST_items widget, 11)] ++ [12]) = true →
     updated_at (demo_item 0 noon wireless_mouse) ≤ updated_at new).
Proof.
  assert (H1 : data_store (state_after noon [(POST_items widget, 11)]) !! 1
               = Some (demo_item 0 noon wireless_mouse)) by (vm_compute; reflexivity).
  assert (H2 : validate widget2 = []) by reflexivity.
  assert (H3 : nondecreasing (readings noon [(POST_items widget, 11)] ++ [12]) = true)
    by reflexivity.
  exact (conj H1 (conj H2 (conj H3
    (update_item_frame noon [(POST_items widget, 11)] 1 _ widget2 12 H1 H2)))).
Defined.

(** Without the hypothesis on the clock the order can fail: an update that
    reads 5 after startup read 10 leaves [updated_at] below [created_at]. *)
Lemma timestamps_order_needs_clock :
  nondecreasing (readings noon [(PUT_items_id 1 widget2, 5)]) = false ∧
  data_store (state_after noon [(PUT_items_id 1 widget2, 5)]) !! 1 =
    Some {| id := 1; base := widget2; created_at := 10; updated_at := 5 |}.
Proof. split; reflexivity. Qed.

(** C7. The [created_at] of an item in the store never changes once the
    item is created, whatever is served in between. Create sets both
    timestamps to the same reading and update refreshes only
    [updated_at]; with a later-or-equal current time at each reading (the
    clock never steps back) [updated_at >= created_at] holds for every
    item after startup and after every operation. *)
Theorem timestamps_invariant (clock : nat -> datetime)
    (pre post : list (Request * datetime)) (k : Z) (it it' : Item) :
  data_store (state_after clock pre) !! k = Some it →
  data_store (state_after clock (pre ++ post)) !! k = Some it' →
  created_at it' = created_at it ∧
  (nondecreasing (readings clock (pre ++ post)) = true →
   created_at it ≤ updated_at it ∧ created_at it' ≤ updated_at it').
Proof.
  intros Hk Hk'. split.
  - rewrite state_after_app in Hk'.
    by apply (run_created_at post (state_after clock pre) k);
      [apply state_after_keys_below|..].
  - intros Hclock. split.
    + unfold readings in Hclock. rewrite fmap_app, app_assoc in Hclock.
      apply (state_after_timestamps_bounded clock pre) in Hclock
        as (t & Hbounded & _).
      by destruct (Hbounded k it Hk).
    + rewrite <- (app_nil_r (readings clock (pre ++ post))) in Hclock.
      apply state_after_timestamps_bounded in Hclock as (t & Hbounded & _).
      by destruct (Hbounded k it' Hk').
Qed.

Lemma timestamps_invariant_witness :
  data_store (state_after noon [(POST_items widget, 11)]) !! 6
    = Some {| id := 6; base := widget; created_at := 11; updated_at := 11 |} ∧
  data_store (state_after noon ([(POST_items widget, 11)] ++
                                [(PUT_items_id 6 widget2, 12); (DELETE_items_id 1, 13)])) !! 6
    = Some {| id := 6; base := widget2; created_at := 11; updated_at := 12 |} ∧
  nondecreasing (readings noon ([(POST_items widget, 11)] ++
                   [(PUT_items_id 6 widget2, 12); (DELETE_items_id 1, 13)])) = true ∧
  11 = 11 ∧ 11 ≤ 11 ∧ 11 ≤ 12.
Proof.
  assert (H1 : data_store (state_after noon [(POST_items widget, 11)]) !! 6
    = Some {| id := 6; base := widget; created_at := 11; updated_at := 11 |})
    by (vm_compute; reflexivity).
  assert (H2 : data_store (state_after noon ([(POST_items widget, 11)] ++
                 [(PUT_items_id 6 widget2, 12); (DELETE_items_id 1, 13)])) !! 6
    = Some {| id := 6; base := widget2; created_at := 11; updated_at := 12 |})
    by (vm_compute; reflexivity).
  assert (H3 : nondecreasing (readings noon ([(POST_items widget, 11)] ++
                   [(PUT_items_id 6 widget2, 12); (DELETE_items_id 1, 13)])) = true)
    by (vm_compute; reflexivity).
  pose proof (timestamps_invariant noon _ _ 6 _ _ H1 H2) as [Ha Hb].
  destruct (Hb H3) as [Hc Hd].
  exact (conj H1 (conj H2 (conj H3 (conj Ha (conj Hc Hd))))).
Defined.

(** ** Listing *)

(** After any sequence of requests [get_all_items] lists exactly the
    items of the mapping. *)
Lemma get_all_items_complete (clock : nat -> datetime)
    (reqs : list (Request * datetime)) (it : Item) :
  (∃ l, (get_all_items (state_after clock reqs)).1 = Return l ∧
        (it ∈ l ↔ ∃ k, data_store (state_after clock reqs) !! k = Some it)).
Proof.
  eexists. split; [reflexivity|].
  rewrite list_elem_of_omap. split.
  - intros (k & _ & Hk). eauto.
  - intros (k & Hk). exists k. split; [|done].
    apply elem_of_seqZ.
    pose proof (proj2 (state_after_keys_below clock reqs) k (mk_is_Some _ _ Hk)). lia.
Qed.

(** ** The counter and the size of the store *)

Lemma app_not_created (req : Request) (now : datetime) (st : Store) :
  created_id (app req now st).1 = None →
  next_id (app req now st).2 = next_id st.
Proof.
  unfold created_id.
  destruct req; unfold_handlers; handler_cases; simpl; try done.
Qed.

Lemma run_created_seq (reqs : list (Request * datetime)) (st : Store) :
  created_ids (run reqs st).1 =
  seqZ (next_id st) (next_id (run reqs st).2 - next_id st).
Proof.
  revert st. induction reqs as [|[req now] reqs IH]; intros st.
  - simpl. by rewrite Z.sub_diag.
  - rewrite run_cons. unfold created_ids in *. simpl.
    pose proof (run_next_id reqs (app req now st).2) as Hrest.
    destruct (created_id (app req now st).1) as [j|] eqn:Hj.
    + apply app_created in Hj as [-> Hnext].
      rewrite IH, Hnext. rewrite Hnext in Hrest.
      rewrite (seqZ_cons (next_id st)) by lia.
      f_equal. f_equal; lia.
    + apply app_not_created in Hj. rewrite IH, Hj. done.
Qed.

(** X1. Ids are issued consecutively from 6: the ids returned by the
    creates of a run are 6, 7, 8, ... without a gap, and the counter is 6
    plus the number of creates; a rejected or failed request consumes no
    id. *)
Theorem created_ids_consecutive (clock : nat -> datetime)
    (reqs : list (Request * datetime)) :
  created_ids (responses clock reqs) =
    seqZ 6 (Z.of_nat (length (created_ids (responses clock reqs)))) ∧
  next_id (state_after clock reqs) =
    6 + Z.of_nat (length (created_ids (responses clock reqs))).
Proof.
  unfold responses, state_after.
  pose proof (run_created_seq reqs (startup clock)) as Hseq.
  pose proof (run_next_id reqs (startup clock)) as Hmono.
  change (next_id (startup clock)) with 6 in *.
  assert (Hlen : Z.of_nat (length (created_ids (run reqs (startup clock)).1)) =
                 next_id (run reqs (startup clock)).2 - 6).
  { rewrite Hseq, length_seqZ. lia. }
  rewrite Hlen. split; [exact Hseq|lia].
Qed.

Lemma app_size (req : Request) (now : datetime) (st : Store) :
  keys_below st →
  (size (data_store (app req now st).2) + deleted_count [(app req now st).1] =
   size (data_store st) + length (created_ids [(app req now st).1]))%nat.
Proof.
  intros [Hpos Hbelow].
  assert (data_store st !! next_id st = None) as Hfree.
  { destruct (data_store st !! next_id st) eqn:Hk; [|done].
    specialize (Hbelow (next_id st) (mk_is_Some _ _ Hk)). lia. }
  unfold deleted_count, created_ids, created_id.
  destruct req; unfold_handlers; handler_cases; simpl;
    rewrite ?filter_cons, ?filter_nil; simpl;
    repeat case_decide; simpl; try done; try lia.
  - rewrite map_size_insert_None by done. lia.
  - rewrite map_size_insert_Some by eauto. lia.
  - rewrite map_size_delete_Some by eauto.
    assert (size (data_store st) ≠ 0%nat); [|lia].
    intros Hsz%map_size_empty_inv. by rewrite Hsz, lookup_empty in Heqo.
Qed.

Lemma run_size (reqs : list (Request * datetime)) (st : Store) :
  keys_below st →
  (size (data_store (run reqs st).2) + deleted_count (run reqs st).1 =
   size (data_store st) + length (created_ids (run reqs st).1))%nat.
Proof.
  revert st. induction reqs as [|[req now] reqs IH]; intros st Hst.
  - simpl. unfold deleted_count. simpl. lia.
  - rewrite run_cons. simpl.
    pose proof (app_size req now st Hst) as Hstep.
    pose proof (IH (app req now st).2 (app_keys_below req now st Hst)) as Hrest.
    unfold deleted_count, created_ids in *. simpl in *.
    rewrite filter_cons. rewrite filter_cons, filter_nil in Hstep.
    destruct (created_id (app req now st).1); case_decide; simpl in *; lia.
Qed.

(** X2. The number of items in the store is the five demo items plus the
    creates answered 201 minus the deletes answered 204. *)
Theorem store_size_accounting (clock : nat -> datetime)
    (reqs : list (Request * datetime)) :
  (size (data_store (state_after clock reqs)) + deleted_count (responses clock reqs) =
   5 + length (created_ids (responses clock reqs)))%nat.
Proof.
  unfold state_after, responses.
  rewrite (run_size reqs (startup clock) (startup_keys_below clock)).
  f_equal.
Qed.

(** ** What the store holds *)

Lemma app_items_valid (req : Request) (now : datetime) (st : Store) :
  items_valid st → items_valid (app req now st).2.
Proof.
  intros Hst.
  destruct req; unfold_handlers; handler_cases; simpl; try done;
    intros k it; simpl.
  - destruct (decide (next_id st = k)) as [<-|Hne].
    + rewrite lookup_insert_eq. intros [= <-]. by apply errors_validate.
    + rewrite lookup_insert_ne by done. apply Hst.
  - destruct (decide (item_id = k)) as [<-|Hne].
    + rewrite lookup_insert_eq. intros [= <-]. by apply errors_validate.
    + rewrite lookup_insert_ne by done. apply Hst.
  - destruct (decide (item_id = k)) as [<-|Hne].
    + by rewrite lookup_delete_eq.
    + rewrite lookup_delete_ne by done. apply Hst.
Qed.

Lemma run_items_valid (reqs : list (Request * datetime)) (st : Store) :
  items_valid st → items_valid (run reqs st).2.
Proof.
  revert st. induction reqs as [|[req now] reqs IH]; intros st Hst.
  - done.
  - rewrite run_cons. simpl. by apply IH, app_items_valid.
Qed.

Lemma initialize_loop_items_valid items clock i st :
  Forall (λ item_data, validate item_data = []) items →
  items_valid st → items_valid (initialize_loop items clock i st).
Proof.
  revert i st. induction items as [|item_data rest IH]; intros i st Hitems Hst.
  - done.
  - apply Forall_cons in Hitems as [Hitem Hrest].
    simpl. apply IH; [done|]. intros k it. simpl.
    destruct (decide (next_id st = k)) as [<-|Hne].
    + rewrite lookup_insert_eq. by intros [= <-].
    + rewrite lookup_insert_ne by done. apply Hst.
Qed.

Lemma demo_items_valid : Forall (λ item_data, validate item_data = []) demo_items.
Proof. repeat constructor. Qed.

(** X3. Every item in the store meets the field constraints, after any
    sequence of requests: the demo items do, and the routes let only
    validated fields reach [create_item] and [update_item]. *)
Theorem stored_items_valid (clock : nat -> datetime)
    (reqs : list (Request * datetime)) :
  map_Forall (λ _ it, validate (base it) = [] ∧ satisfies_constraints (base it))
             (data_store (state_after clock reqs)).
Proof.
  intros k it Hk.
  assert (validate (base it) = []) as Hvalid.
  { apply (run_items_valid reqs (startup clock)) with k; [|exact Hk].
    apply initialize_loop_items_valid; [apply demo_items_valid|].
    intros k' it'. simpl. by rewrite lookup_empty. }
  split; [done|]. by apply satisfies_validate.
Qed.

(** X4. A request touches at most one key: the entry under [j] is the same
    before and after unless the request is a create and [j] is the
    counter, or an update or delete that names [j]. After any sequence of
    requests the counter is a free key, so a create overwrites nothing. *)
Theorem request_touches_one_key (clock : nat -> datetime)
    (reqs : list (Request * datetime)) (st : Store) (req : Request)
    (now : datetime) (j : Z) :
  data_store (state_after clock reqs) !! next_id (state_after clock reqs) = None ∧
  (data_store (app req now st).2 !! j = data_store st !! j ∨
   (∃ item, req = POST_items item ∧ j = next_id st) ∨
   (∃ item, req = PUT_items_id j item) ∨
   req = DELETE_items_id j).
Proof.
  split.
  - destruct (data_store (state_after clock reqs) !! next_id (state_after clock reqs))
      eqn:Hk; [|done].
    pose proof (proj2 (state_after_keys_below clock reqs) _ (mk_is_Some _ _ Hk)). lia.
  - destruct req; unfold_handlers; handler_cases; simpl; eauto.
    + destruct (decide (next_id st = j)) as [<-|Hne]; [eauto|].
      left. by rewrite lookup_insert_ne.
    + destruct (decide (item_id = j)) as [<-|Hne]; [eauto|].
      left. by rewrite lookup_insert_ne.
    + destruct (decide (item_id = j)) as [<-|Hne]; [eauto|].
      left. by rewrite lookup_delete_ne.
Qed.

(** ** Composing requests *)

(** X5. An update is a full replacement: two updates of the same id leave
    the store, and answer, as the second one alone would. *)
Theorem update_absorbs_update (st : Store) (item_id : Z)
    (item1 item2 : ItemUpdate) (now1 now2 : datetime) :
  validate item2 = [] →
  app (PUT_items_id item_id item2) now2
      (app (PUT_items_id item_id item1) now1 st).2 =
  app (PUT_items_id item_id item2) now2 st.
Proof.
  intros Hvalid. unfold app, validated. rewrite (validate_errors _ Hvalid).
  destruct (validation_errors item1); [|done].
  unfold update_item at 2.
  destruct (data_store st !! item_id) as [existing|] eqn:Hlook; simpl.
  - unfold update_item. simpl. rewrite lookup_insert_eq, Hlook. simpl.
    by rewrite insert_insert_eq.
  - done.
Qed.

Lemma update_absorbs_update_witness :
  validate widget2 = [] ∧
  app (PUT_items_id 2 widget2) 12 (app (PUT_items_id 2 widget) 11 (startup noon)).2 =
  app (PUT_items_id 2 widget2) 12 (startup noon).
Proof.
  assert (H : validate widget2 = []) by reflexivity.
  exact (conj H (update_absorbs_update (startup noon) 2 widget widget2 11 12 H)).
Defined.

(** X6. Creating an item and deleting it again gives back the mapping as
    it was, but not the id: the counter stays one higher. *)
Theorem create_then_delete (clock : nat -> datetime)
    (reqs : list (Request * datetime)) (item : ItemCreate) (now now' : datetime) :
  validate item = [] →
  ∃ (it : Item) (st1 st2 : Store),
    app (POST_items item) now (state_after clock reqs) =
      ({| status := HTTP_201_CREATED; body := JsonItem it |}, st1) ∧
    app (DELETE_items_id (id it)) now' st1 =
      ({| status := HTTP_204_NO_CONTENT; body := NoBody |}, st2) ∧
    data_store st2 = data_store (state_after clock reqs) ∧
    next_id st2 = next_id (state_after clock reqs) + 1.
Proof.
  intros Hvalid.
  assert (data_store (state_after clock reqs) !! next_id (state_after clock reqs) = None)
    as Hfree.
  { destruct (data_store (state_after clock reqs) !! next_id (state_after clock reqs))
      eqn:Hk; [|done].
    pose proof (proj2 (state_after_keys_below clock reqs) _ (mk_is_Some _ _ Hk)). lia. }
  eexists _, _, _. unfold app, validated. rewrite (validate_errors _ Hvalid).
  unfold create_item. simpl. split; [reflexivity|].
  unfold delete_item. simpl. rewrite lookup_insert_eq. simpl.
  split; [reflexivity|]. simpl. split; [|reflexivity].
  by apply delete_insert_id.
Qed.

Lemma create_then_delete_witness :
  validate widget = [] ∧
  ∃ (it : Item) (st1 st2 : Store),
    app (POST_items widget) 11 (state_after noon [(DELETE_items_id 4, 10)]) =
      ({| status := HTTP_201_CREATED; body := JsonItem it |}, st1) ∧
    app (DELETE_items_id (id it)) 12 st1 =
      ({| status := HTTP_204_NO_CONTENT; body := NoBody |}, st2) ∧
    data_store st2 = data_store (state_after noon [(DELETE_items_id 4, 10)]) ∧
    next_id st2 = next_id (state_after noon [(DELETE_items_id 4, 10)]) + 1.
Proof.
  assert (H : validate widget = []) by reflexivity.
  exact (conj H (create_then_delete noon [(DELETE_items_id 4, 10)] widget 11 12 H)).
Defined.

(** ** Answers *)

(** X7. An id that was never issued is not found: for an id below 1 or at
    or above the counter, get, update and delete raise the 404, after any
    sequence of requests. *)
Theorem unissued_id_not_found (clock : nat -> datetime)
    (reqs : list (Request * datetime)) (item_id : Z) (item : ItemUpdate)
    (now : datetime) :
  item_id < 1 ∨ next_id (state_after clock reqs) ≤ item_id →
  get_item_by_id item_id (state_after clock reqs) =
    (Raise (not_found item_id), state_after clock reqs) ∧
  update_item item_id item now (state_after clock reqs) =
    (Raise (not_found item_id), state_after clock reqs) ∧
  delete_item item_id (state_after clock reqs) =
    (Raise (not_found item_id), state_after clock reqs) ∧
  status (app (GET_items_id item_id) now (state_after clock reqs)).1 = HTTP_404_NOT_FOUND ∧
  status (app (DELETE_items_id item_id) now (state_after clock reqs)).1 = HTTP_404_NOT_FOUND.
Proof.
  intros Hrange.
  assert (data_store (state_after clock reqs) !! item_id = None) as Habsent.
  { destruct (data_store (state_after clock reqs) !! item_id) eqn:Hk; [|done].
    pose proof (proj2 (state_after_keys_below clock reqs) _ (mk_is_Some _ _ Hk)). lia. }
  unfold app, get_item_by_id, update_item, delete_item. rewrite Habsent.
  split_and!; reflexivity.
Qed.

Lemma unissued_id_not_found_witness :
  (0 < 1 ∨ next_id (state_after noon [(POST_items widget, 11)]) ≤ 0) ∧
  get_item_by_id 0 (state_after noon [(POST_items widget, 11)]) =
    (Raise (not_found 0), state_after noon [(POST_items widget, 11)]) ∧
  update_item 0 widget2 12 (state_after noon [(POST_items widget, 11)]) =
    (Raise (not_found 0), state_after noon [(POST_items widget, 11)]) ∧
  delete_item 0 (state_after noon [(POST_items widget, 11)]) =
    (Raise (not_found 0), state_after noon [(POST_items widget, 11)]) ∧
  status (app (GET_items_id 0) 12 (state_after noon [(POST_items widget, 11)])).1
    = HTTP_404_NOT_FOUND ∧
  status (app (DELETE_items_id 0) 12 (state_after noon [(POST_items widget, 11)])).1
    = HTTP_404_NOT_FOUND.
Proof.
  assert (H : 0 < 1 ∨ next_id (state_after noon [(POST_items widget, 11)]) ≤ 0)
    by (left; lia).
  exact (conj H (unissued_id_not_found noon [(POST_items widget, 11)] 0 widget2 12 H)).
Defined.


Lemma length_append (s t : string) :
  String.length (s +:+ t) = (String.length s + String.length t)%nat.
Proof. induction s as [|c s IH]; simpl; [done|by rewrite IH]. Qed.

Lemma append_cancel_r (s1 s2 t : string) :
  s1 +:+ t = s2 +:+ t → s1 = s2.
Proof.
  revert s2. induction s1 as [|c s1 IH]; intros [|c' s2]; simpl.
  - done.
  - intros H. apply (f_equal String.length) in H.
    rewrite !length_append in H. simpl in H. lia.
  - intros H. apply (f_equal String.length) in H.
    rewrite !length_append in H. simpl in H. lia.
  - intros [= -> H]. f_equal. by apply IH.
Qed.

(** X9. The detail of the 404 tells which id was asked for: two ids give
    the same exception only if they are the same id. *)
Theorem not_found_names_the_id (i j : Z) :
  not_found i = not_found j ↔ i = j.
Proof.
  split; [|by intros ->].
  unfold not_found. intros [= H]. apply (inj (String.app "")) in H.
  apply append_cancel_r in H. by apply (inj pretty) in H.
Qed.

(** ** The ordered dict and the mapping *)

Lemma dict_get_lookup (d : dict) (k : Z) :
  (list_to_map d : gmap Z Item) !! k = dict_get k d.
Proof.
  induction d as [|[k' v] rest IH]; simpl.
  - apply lookup_empty.
  - case_decide as Hk.
    + subst. apply lookup_insert_eq.
    + by rewrite lookup_insert_ne.
Qed.

Lemma dict_set_insert (d : dict) (k : Z) (v : Item) :
  (list_to_map (dict_set k v d) : gmap Z Item) = <[k := v]> (list_to_map d).
Proof.
  induction d as [|[k' v'] rest IH]; simpl.
  - done.
  - case_decide as Hk; simpl.
    + subst. by rewrite insert_insert_eq.
    + rewrite IH. by apply insert_insert_ne.
Qed.

Lemma dict_get_above (d : dict) (k : Z) :
  Forall (λ k', k < k') d.*1 → dict_get k d = None.
Proof.
  induction d as [|[k' v] rest IH]; simpl; [done|].
  intros [Hhd Htl]%Forall_cons. simpl in Hhd.
  case_decide; [lia|]. by apply IH.
Qed.

Lemma dict_del_delete (d : dict) (k : Z) :
  StronglySorted Z.lt d.*1 →
  (list_to_map (dict_del k d) : gmap Z Item) = delete k (list_to_map d).
Proof.
  induction d as [|[k' v'] rest IH]; simpl.
  - intros _. by rewrite delete_empty.
  - intros [Habove Hrest]%StronglySorted_cons.
    case_decide as Hk; simpl.
    + subst. rewrite delete_insert_eq.
      symmetry. apply delete_id. rewrite dict_get_lookup.
      by apply dict_get_above.
    + rewrite IH by done. by rewrite delete_insert_ne.
Qed.

Lemma dict_set_keys_present (d : dict) (k : Z) (v : Item) :
  is_Some (dict_get k d) → (dict_set k v d).*1 = d.*1.
Proof.
  induction d as [|[k' v'] rest IH]; simpl.
  - by intros [? ?].
  - case_decide as Hk; simpl.
    + by subst.
    + intros Hget. f_equal. by apply IH.
Qed.

Lemma dict_set_append (d : dict) (k : Z) (v : Item) :
  Forall (λ k', k' < k) d.*1 → dict_set k v d = d ++ [(k, v)].
Proof.
  induction d as [|[k' v'] rest IH]; simpl; [done|].
  intros [Hhd Htl]%Forall_cons. simpl in Hhd.
  case_decide; [lia|]. by rewrite IH.
Qed.

Lemma dict_del_Forall (P : Z → Prop) (d : dict) (k : Z) :
  Forall P d.*1 → Forall P (dict_del k d).*1.
Proof.
  induction d as [|[k' v'] rest IH]; simpl; [done|].
  intros [Hhd Htl]%Forall_cons.
  case_decide; [done|]. simpl. apply Forall_cons. auto.
Qed.

Lemma dict_del_sorted (d : dict) (k : Z) :
  StronglySorted Z.lt d.*1 → StronglySorted Z.lt (dict_del k d).*1.
Proof.
  induction d as [|[k' v'] rest IH]; simpl; [done|].
  intros [Habove Hrest]%StronglySorted_cons.
  case_decide; [done|]. simpl. apply StronglySorted_cons.
  split; [by apply dict_del_Forall|by apply IH].
Qed.

Lemma sorted_NoDup (l : list Z) : StronglySorted Z.lt l → NoDup l.
Proof.
  induction l as [|x l IH]; [constructor|].
  intros [Hx Hl]%StronglySorted_cons. constructor; [|by apply IH].
  intros Hin. rewrite Forall_forall in Hx. specialize (Hx x Hin). lia.
Qed.

Lemma omap_all_None {A B} (f : A → option B) (l : list A) :
  Forall (λ x, f x = None) l → omap f l = [].
Proof.
  induction l as [|x l IH]; [done|].
  intros [Hx Hl]%Forall_cons. simpl. rewrite Hx. by apply IH.
Qed.

(** Reading the mapping at the keys [lo], [lo + 1], ... gives the values in
    the order of the dict, when the keys of the dict increase. *)
Lemma sorted_values (d : dict) (lo n : Z) :
  StronglySorted Z.lt d.*1 →
  Forall (λ k, lo ≤ k < lo + n) d.*1 →
  omap (λ k, (list_to_map d : gmap Z Item) !! k) (seqZ lo n) = dict_values d.
Proof.
  revert lo n. induction d as [|[k v] rest IH]; intros lo n Hsorted Hrange.
  - simpl. apply omap_all_None, Forall_forall. intros j _. apply lookup_empty.
  - simpl in *.
    apply StronglySorted_cons in Hsorted as [Habove Hrest].
    apply Forall_cons in Hrange as [Hk Hrange]. simpl in Hk.
    replace n with ((k - lo) + (lo + n - k)) by lia.
    rewrite seqZ_app by lia. rewrite omap_app.
    replace (lo + (k - lo)) with k by lia.
    rewrite (seqZ_cons k) by lia. simpl. rewrite lookup_insert_eq.
    rewrite (omap_all_None _ (seqZ lo (k - lo))).
    + simpl. unfold dict_values. simpl. f_equal.
      match goal with
      | |- context [seqZ ?a ?b] => trans (dict_values rest); [rewrite <- (IH a b)|done]
      end; [|done|].
      * apply list_omap_ext, Forall2_same_length_lookup_2; [done|].
        intros i j j' Hj Hj'. rewrite Hj in Hj'. injection Hj' as <-.
        apply lookup_seqZ in Hj. rewrite lookup_insert_ne by lia. done.
      * rewrite Forall_forall in Habove, Hrange |- *. intros j Hj.
        specialize (Habove j Hj). specialize (Hrange j Hj). lia.
    + apply Forall_forall. intros j Hj%elem_of_seqZ.
      rewrite lookup_insert_ne by lia. rewrite dict_get_lookup.
      apply dict_get_above. rewrite Forall_forall in Habove |- *.
      intros k' Hk'. specialize (Habove k' Hk'). lia.
Qed.

Lemma py_wf_set_new (st : PyStore) (v : Item) :
  py_wf st →
  py_wf {| py_data_store := dict_set (py_next_id st) v (py_data_store st);
           py_next_id := py_next_id st + 1 |}.
Proof.
  intros (Hsorted & Hrange & Hpos). unfold py_wf. simpl.
  rewrite dict_set_append
    by (eapply Forall_impl; [exact Hrange|simpl; intros; lia]).
  rewrite fmap_app. simpl. split_and!.
  - apply StronglySorted_app. split_and!; [|done|repeat constructor].
    intros x1 x2 Hx1 ->%list_elem_of_singleton.
    rewrite Forall_forall in Hrange. specialize (Hrange x1 Hx1). lia.
  - apply Forall_app. split.
    + eapply Forall_impl; [exact Hrange|simpl; intros; lia].
    + repeat constructor; lia.
  - lia.
Qed.

(** One request: the ordered store answers as the mapping does, stands for
    the mapping's next state, and keeps its keys in order. *)
Lemma py_app_sim (req : Request) (now : datetime) (st : PyStore) :
  py_wf st →
  (py_app req now st).1 = (app req now (abstract st)).1 ∧
  abstract (py_app req now st).2 = (app req now (abstract st)).2 ∧
  py_wf (py_app req now st).2.
Proof.
  intros Hwf. pose proof Hwf as (Hsorted & Hrange & Hpos).
  destruct req; simpl.
  - unfold get_all_items, py_get_all_items. simpl. split_and!; [|done..].
    rewrite (sorted_values (py_data_store st) 1 (py_next_id st - 1)); [done..|].
    eapply Forall_impl; [exact Hrange|simpl; intros; lia].
  - unfold get_item_by_id, py_get_item_by_id. simpl. rewrite dict_get_lookup.
    by destruct (dict_get item_id (py_data_store st)).
  - unfold validated, py_validated. destruct (validation_errors body0); [|done].
    unfold create_item, py_create_item, abstract. simpl.
    rewrite dict_set_insert. split_and!; [done..|]. by apply py_wf_set_new.
  - unfold validated, py_validated. destruct (validation_errors body0); [|done].
    unfold update_item, py_update_item. simpl. rewrite dict_get_lookup.
    destruct (dict_get item_id (py_data_store st)) as [existing|] eqn:Hget; [|done].
    unfold abstract. simpl. rewrite dict_set_insert. split_and!; [done..|].
    unfold py_wf. simpl. by rewrite dict_set_keys_present by eauto.
  - unfold delete_item, py_delete_item. simpl. rewrite dict_get_lookup.
    destruct (dict_get item_id (py_data_store st)) as [existing|] eqn:Hget; [|done].
    unfold abstract. simpl. rewrite dict_del_delete by done. split_and!; [done..|].
    unfold py_wf. simpl.
    split_and!; [by apply dict_del_sorted|by apply dict_del_Forall|done].
  - done.
  - done.
Qed.

Lemma py_run_cons (req : Request) (now : datetime) (rest : list (Request * datetime))
    (st : PyStore) :
  py_run ((req, now) :: rest) st =
  ((py_app req now st).1 :: (py_run rest (py_app req now st).2).1,
   (py_run rest (py_app req now st).2).2).
Proof.
  simpl. destruct (py_app req now st) as [resp st1]. simpl.
  by destruct (py_run rest st1).
Qed.

Lemma py_run_sim (reqs : list (Request * datetime)) (st : PyStore) :
  py_wf st →
  (py_run reqs st).1 = (run reqs (abstract st)).1 ∧
  abstract (py_run reqs st).2 = (run reqs (abstract st)).2 ∧
  py_wf (py_run reqs st).2.
Proof.
  revert st. induction reqs as [|[req now] reqs IH]; intros st Hwf.
  - done.
  - rewrite py_run_cons, run_cons. simpl.
    destruct (py_app_sim req now st Hwf) as (Hresp & Hst & Hwf').
    destruct (IH _ Hwf') as (Hresps & Hfinal & Hwf'').
    rewrite Hst in Hresps, Hfinal. rewrite Hresp, Hresps, Hfinal. done.
Qed.

Lemma py_initialize_loop_sim items clock i (st : PyStore) :
  py_wf st →
  abstract (py_initialize_loop items clock i st) =
    initialize_loop items clock i (abstract st) ∧
  py_wf (py_initialize_loop items clock i st).
Proof.
  revert i st. induction items as [|item_data rest IH]; intros i st Hwf.
  - done.
  - simpl. destruct (IH (S i) _ (py_wf_set_new st
      {| id := py_next_id st; base := item_data;
         created_at := clock i; updated_at := clock i |} Hwf)) as [Habs Hwf'].
    split; [|done]. rewrite Habs. f_equal.
    unfold abstract. simpl. by rewrite dict_set_insert.
Qed.

Lemma py_startup_sim (clock : nat -> datetime) :
  abstract (py_startup clock) = startup clock ∧ py_wf (py_startup clock).
Proof.
  apply py_initialize_loop_sim. unfold py_wf. simpl.
  split_and!; [constructor|constructor|lia].
Qed.

(** X10. The store kept as a dict in insertion order and the store kept as
    a mapping answer every sequence of requests alike, the listing
    included, and the dict stands for the mapping throughout. *)
Theorem ordered_dict_refinement (clock : nat -> datetime)
    (reqs : list (Request * datetime)) :
  (py_run reqs (py_startup clock)).1 = responses clock reqs ∧
  abstract (py_run reqs (py_startup clock)).2 = state_after clock reqs.
Proof.
  destruct (py_startup_sim clock) as [Habs Hwf].
  destruct (py_run_sim reqs _ Hwf) as (Hresps & Hfinal & _).
  unfold responses, state_after. by rewrite <- Habs.
Qed.

Lemma keyed_values (d : dict) :
  StronglySorted Z.lt d.*1 →
  (∀ k it, (list_to_map d : gmap Z Item) !! k = Some it → id it = k) →
  id <$> dict_values d = d.*1.
Proof.
  induction d as [|[k v] rest IH]; simpl; [done|].
  intros [Habove Hrest]%StronglySorted_cons Hkeyed.
  unfold dict_values in *. simpl. f_equal.
  - apply Hkeyed. apply lookup_insert_eq.
  - apply IH; [done|]. intros k' it Hk'. apply Hkeyed.
    rewrite lookup_insert_ne; [done|].
    intros <-. rewrite dict_get_lookup, dict_get_above in Hk'; done.
Qed.

(** X11. [get_all_items] lists every stored item exactly once, in
    increasing order of id: oldest id first, an updated item in its old
    place, a new item last. *)
Theorem listing_in_id_order (clock : nat -> datetime)
    (reqs : list (Request * datetime)) :
  ∃ l : list Item,
    (py_get_all_items (py_run reqs (py_startup clock)).2).1 = Return l ∧
    StronglySorted Z.lt (id <$> l) ∧
    (∀ it, it ∈ l ↔ ∃ k, data_store (state_after clock reqs) !! k = Some it) ∧
    length l = size (data_store (state_after clock reqs)).
Proof.
  destruct (py_startup_sim clock) as [Habs Hwf].
  destruct (py_run_sim reqs _ Hwf) as (_ & Hfinal & (Hsorted & _ & _)).
  rewrite Habs in Hfinal. fold (state_after clock reqs) in Hfinal.
  pose proof (state_after_keyed clock reqs) as Hkeyed.
  rewrite <- Hfinal in *. simpl in *.
  set (d := py_data_store (py_run reqs (py_startup clock)).2) in *.
  exists (dict_values d). split_and!.
  - done.
  - by rewrite keyed_values.
  - intros it. unfold dict_values. rewrite list_elem_of_fmap. split.
    + intros ([k it'] & -> & Hin). exists k. simpl.
      apply elem_of_list_to_map; [by apply sorted_NoDup|done].
    + intros (k & Hk). exists (k, it). split; [done|].
      by apply elem_of_list_to_map in Hk; [|apply sorted_NoDup].
  - unfold dict_values. rewrite length_fmap.
    symmetry. by apply map_size_list_to_map, sorted_NoDup.
Qed.

(** ** Reading back what was written *)

(** X12. Read your writes: after an update of a present id with valid
    fields, a get on that id answers 200 with the item the update
    returned, which carries the new fields, from any store. *)
Theorem update_then_get (st : Store) (item_id : Z) (old : Item)
    (item : ItemUpdate) (now now' : datetime) :
  data_store st !! item_id = Some old →
  validate item = [] →
  ∃ (new : Item) (st' : Store),
    app (PUT_items_id item_id item) now st =
      ({| status := HTTP_200_OK; body := JsonItem new |}, st') ∧
    app (GET_items_id item_id) now' st' =
      ({| status := HTTP_200_OK; body := JsonItem new |}, st') ∧
    base new = item ∧ updated_at new = now ∧ created_at new = created_at old.
Proof.
  intros Hold Hvalid.
  exists {| id := item_id; base := item; created_at := created_at old;
            updated_at := now |}.
  eexists. unfold app, validated, update_item. rewrite (validate_errors _ Hvalid), Hold. simpl.
  split; [reflexivity|]. unfold get_item_by_id. simpl.
  rewrite lookup_insert_eq. done.
Qed.

Lemma update_then_get_witness :
  data_store (startup noon) !! 3 = Some (demo_item 2 noon usb_c_hub) ∧
  validate widget2 = [] ∧
  ∃ (new : Item) (st' : Store),
    app (PUT_items_id 3 widget2) 11 (startup noon) =
      ({| status := HTTP_200_OK; body := JsonItem new |}, st') ∧
    app (GET_items_id 3) 12 st' =
      ({| status := HTTP_200_OK; body := JsonItem new |}, st') ∧
    base new = widget2 ∧ updated_at new = 11 ∧
    created_at new = created_at (demo_item 2 noon usb_c_hub).
Proof.
  assert (H1 : data_store (startup noon) !! 3 = Some (demo_item 2 noon usb_c_hub))
    by reflexivity.
  assert (H2 : validate widget2 = []) by reflexivity.
  exact (conj H1 (conj H2 (update_then_get (startup noon) 3 _ widget2 11 12 H1 H2))).
Defined.

(** X13. Nothing is deduplicated: creating the same valid fields twice
    gives two items with consecutive ids, both in the store afterwards. *)
Theorem create_twice_two_items (st : Store) (item : ItemCreate)
    (now1 now2 : datetime) :
  validate item = [] →
  ∃ (it1 it2 : Item) (st1 st2 : Store),
    app (POST_items item) now1 st =
      ({| status := HTTP_201_CREATED; body := JsonItem it1 |}, st1) ∧
    app (POST_items item) now2 st1 =
      ({| status := HTTP_201_CREATED; body := JsonItem it2 |}, st2) ∧
    id it2 = id it1 + 1 ∧ base it1 = item ∧ base it2 = item ∧
    data_store st2 !! id it1 = Some it1 ∧
    data_store st2 !! id it2 = Some it2.
Proof.
  intros Hvalid.
  exists {| id := next_id st; base := item; created_at := now1; updated_at := now1 |},
         {| id := next_id st + 1; base := item; created_at := now2; updated_at := now2 |}.
  eexists _, _. unfold app, validated, create_item. rewrite (validate_errors _ Hvalid). simpl.
  split_and!; try reflexivity; simpl.
  - rewrite lookup_insert_ne by lia. apply lookup_insert_eq.
  - apply lookup_insert_eq.
Qed.

Lemma create_twice_two_items_witness :
  validate widget = [] ∧
  ∃ (it1 it2 : Item) (st1 st2 : Store),
    app (POST_items widget) 11 (startup noon) =
      ({| status := HTTP_201_CREATED; body := JsonItem it1 |}, st1) ∧
    app (POST_items widget) 12 st1 =
      ({| status := HTTP_201_CREATED; body := JsonItem it2 |}, st2) ∧
    id it2 = id it1 + 1 ∧ base it1 = widget ∧ base it2 = widget ∧
    data_store st2 !! id it1 = Some it1 ∧
    data_store st2 !! id it2 = Some it2.
Proof.
  assert (H : validate widget = []) by reflexivity.
  exact (conj H (create_twice_two_items (startup noon) widget 11 12 H)).
Defined.
